(** * code-file-analyzer: a shallow embedding of [src/index.js]

    The analyzer walks a directory tree, classifies the lines of every
    [.ts]/[.tsx] file and prints totals.  This development embeds the
    string primitives the script uses, the ignore rules, the directory
    walk, the line classifier and the report arithmetic, and states the
    properties of the specification against them. *)

From Stdlib Require Import ZArith NArith QArith Qround Qabs List Bool String Ascii
  DecimalString Lia Field Qfield Permutation Sorted.
From stdpp Require Import base decidable countable gmap.
Import ListNotations.

Local Open Scope Z_scope.

(** ** JavaScript strings

    A JavaScript string is a sequence of UTF-16 code units; a code unit is
    modelled as an [N].  All the literals of the script are ASCII. *)

Module JS.

Abbreviation jsstring := (list N).

Definition lit (s : string) : jsstring :=
  map N_of_ascii (list_ascii_of_string s).

(** ECMAScript [LineTerminator]: LF, CR, LS, PS.  The regular-expression
    atom [.] (without the [s] flag) matches every code unit but these. *)
Definition isLineTerminator (c : N) : bool :=
  ((c =? 10) || (c =? 13) || (c =? 8232) || (c =? 8233))%N.

(** ECMAScript [WhiteSpace]: TAB, VT, FF, SP, NBSP, ZWNBSP and the
    Unicode space separators (category Zs). *)
Definition isWhiteSpace (c : N) : bool :=
  ((c =? 9) || (c =? 11) || (c =? 12) || (c =? 32) || (c =? 160)
   || (c =? 5760) || ((8192 <=? c) && (c <=? 8202)) || (c =? 8239)
   || (c =? 8287) || (c =? 12288) || (c =? 65279))%N.

(** What [String.prototype.trim] removes and what [\s] matches. *)
Definition isSpace (c : N) : bool := isWhiteSpace c || isLineTerminator c.

Fixpoint trimStart (s : jsstring) : jsstring :=
  match s with
  | [] => []
  | c :: rest => if isSpace c then trimStart rest else s
  end.

Definition trimEnd (s : jsstring) : jsstring := rev (trimStart (rev s)).

Definition trim (s : jsstring) : jsstring := trimEnd (trimStart s).

(** [s === ''], and the truthiness test [if (s)] negated. *)
Definition isEmpty (s : jsstring) : bool :=
  match s with [] => true | _ => false end.

Fixpoint startsWith (p s : jsstring) : bool :=
  match p, s with
  | [], _ => true
  | _ :: _, [] => false
  | a :: p', b :: s' => (a =? b)%N && startsWith p' s'
  end.

Definition endsWith (p s : jsstring) : bool := startsWith (rev p) (rev s).

Fixpoint includes (sub s : jsstring) : bool :=
  startsWith sub s ||
  match s with
  | [] => false
  | _ :: rest => includes sub rest
  end.

(** [s.split(sep)] for a non-empty separator.  [skip] counts the code
    units of a separator occurrence that are still to be dropped. *)
Fixpoint split_from (sep : jsstring) (skip : nat) (s : jsstring) : list jsstring :=
  match s with
  | [] => [[]]
  | c :: rest =>
      match skip with
      | S k => split_from sep k rest
      | O =>
          if startsWith sep s
          then [] :: split_from sep (Nat.pred (List.length sep)) rest
          else match split_from sep 0 rest with
               | piece :: pieces => (c :: piece) :: pieces
               | [] => [[c]]
               end
      end
  end.

Definition split (sep s : jsstring) : list jsstring := split_from sep 0 s.

Fixpoint join (sep : jsstring) (pieces : list jsstring) : jsstring :=
  match pieces with
  | [] => []
  | [p] => p
  | p :: more => p ++ sep ++ join sep more
  end.

(** [pieces.slice(1)] and [pieces[0]] (the latter on the result of a
    [split], which is never empty). *)
Definition slice1 (pieces : list jsstring) : list jsstring := tl pieces.
Definition first (pieces : list jsstring) : jsstring := hd [] pieces.

(** [s.slice(0, -1)]. *)
Definition dropLast (s : jsstring) : jsstring := removelast s.

(** [s.replace(/c/g, by)] for a pattern that is one literal code unit. *)
Fixpoint replaceChar (c : N) (by_ : jsstring) (s : jsstring) : jsstring :=
  match s with
  | [] => []
  | d :: rest =>
      if (d =? c)%N then by_ ++ replaceChar c by_ rest
      else d :: replaceChar c by_ rest
  end.

(** [s.replace(/ab/g, by)] for a pattern that is a literal string: the
    occurrences are found left to right and do not overlap. *)
Fixpoint replaceLit_from (pat by_ : jsstring) (skip : nat) (s : jsstring) : jsstring :=
  match s with
  | [] => []
  | c :: rest =>
      match skip with
      | S k => replaceLit_from pat by_ k rest
      | O =>
          if startsWith pat s
          then by_ ++ replaceLit_from pat by_ (Nat.pred (List.length pat)) rest
          else c :: replaceLit_from pat by_ 0 rest
      end
  end.

Definition replaceLit (pat by_ s : jsstring) : jsstring :=
  replaceLit_from pat by_ 0 s.

End JS.

Import JS.

(** ** The regular expressions of [countCodeLines] *)

Definition blockOpen : jsstring := lit "/*".
Definition blockClose : jsstring := lit "*/".
Definition lineComment : jsstring := lit "//".

(** [.*\*\/] anchored at the head of [s]: a run of code units that are
    not line terminators, then the terminator.  The result is the number
    of code units up to and including the FIRST terminator that can be
    reached, which is the extent of the lazy [.*?\*\/]; the greedy [.*]
    matches exactly when the lazy one does. *)
Fixpoint closeExtent (s : jsstring) : option nat :=
  if startsWith blockClose s then Some 2%nat
  else match s with
       | [] => None
       | c :: rest =>
           if isLineTerminator c then None
           else option_map S (closeExtent rest)
       end.

(** The extent of a match of [/\/\*.*?\*\//] anchored at the head of [s]. *)
Definition spanExtent (s : jsstring) : option nat :=
  if startsWith blockOpen s
  then option_map (fun n => S (S n)) (closeExtent (skipn 2 s))
  else None.

(** [s.match(/\/\*.*\*\//)] as a truth value: the pattern matches
    somewhere in [s]. *)
Fixpoint matchBlock (s : jsstring) : bool :=
  match spanExtent s with
  | Some _ => true
  | None => match s with
            | [] => false
            | _ :: rest => matchBlock rest
            end
  end.

(** [s.replace(/\/\*.*?\*\//g, '')]: every match, found left to right,
    is deleted; [skip] counts the code units of the current match that
    are still to be deleted. *)
Fixpoint stripBlocks_from (skip : nat) (s : jsstring) : jsstring :=
  match s with
  | [] => []
  | c :: rest =>
      match skip with
      | S k => stripBlocks_from k rest
      | O =>
          match spanExtent s with
          | Some n => stripBlocks_from (Nat.pred n) rest
          | None => c :: stripBlocks_from 0 rest
          end
      end
  end.

Definition stripBlocks (s : jsstring) : jsstring := stripBlocks_from 0 s.

(** [/^(import|export)\s/.test(s)]. *)
Definition isImportExport (s : jsstring) : bool :=
  (startsWith (lit "import") s || startsWith (lit "export") s)
  && match nth_error s 6 with
     | Some c => isSpace c
     | None => false
     end.

(** ** The line classifier, [countCodeLines] *)

(** The object [countCodeLines] returns. *)
Record LineCounts : Type := mkCounts {
  codeLines : Z;
  commentLines : Z;
  emptyLines : Z;
  importLines : Z
}.

(** The local variables of the loop: the four counters and the flag. *)
Record Scan : Type := mkScan {
  tally : LineCounts;
  inMultiLineComment : bool
}.

Definition incCode (st : Scan) : Scan :=
  let t := tally st in
  mkScan (mkCounts (codeLines t + 1) (commentLines t) (emptyLines t) (importLines t))
         (inMultiLineComment st).

Definition incComment (st : Scan) : Scan :=
  let t := tally st in
  mkScan (mkCounts (codeLines t) (commentLines t + 1) (emptyLines t) (importLines t))
         (inMultiLineComment st).

Definition incEmpty (st : Scan) : Scan :=
  let t := tally st in
  mkScan (mkCounts (codeLines t) (commentLines t) (emptyLines t + 1) (importLines t))
         (inMultiLineComment st).

Definition incImport (st : Scan) : Scan :=
  let t := tally st in
  mkScan (mkCounts (codeLines t) (commentLines t) (emptyLines t) (importLines t + 1))
         (inMultiLineComment st).

Definition setInComment (b : bool) (st : Scan) : Scan :=
  mkScan (tally st) b.

(** Lines 166-175: the line has code when something is left of it. *)
Definition countRest (st : Scan) (processedLine : jsstring) : Scan :=
  if isEmpty processedLine then st
  else
    let st := if isImportExport processedLine then incImport st else st in
    incCode st.

(** Lines 154-175: the line comment. *)
Definition classifyLineComment (st : Scan) (processedLine : jsstring) : Scan :=
  if startsWith lineComment processedLine then incComment st
  else if includes lineComment processedLine
       then countRest (incComment st) (trim (first (split lineComment processedLine)))
       else countRest st processedLine.

(** Lines 138-175: the body of the loop from the test for an opener on,
    for a line (or the rest of one) that is outside a block comment. *)
Definition classify (st : Scan) (processedLine : jsstring) : Scan :=
  if includes blockOpen processedLine && negb (matchBlock processedLine) then
    let beforeComment := trim (first (split blockOpen processedLine)) in
    let hasCode := negb (isEmpty beforeComment) in
    let st := incComment (setInComment true st) in
    if hasCode then incCode st else st
  else if matchBlock processedLine
       then classifyLineComment (incComment st) (trim (stripBlocks processedLine))
       else classifyLineComment st processedLine.

(** The text after the first terminator:
    [processedLine.split('*/').slice(1).join('*/').trim()]. *)
Definition afterTerminator (processedLine : jsstring) : jsstring :=
  trim (join blockClose (slice1 (split blockClose processedLine))).

(** One iteration of [for (const line of lines)]. *)
Definition step (st : Scan) (line : jsstring) : Scan :=
  let trimmedLine := trim line in
  if isEmpty trimmedLine then incEmpty st
  else if inMultiLineComment st then
    if includes blockClose trimmedLine
    then classify (setInComment false st) (afterTerminator trimmedLine)
    else incComment st
  else classify st trimmedLine.

Definition initialScan : Scan := mkScan (mkCounts 0 0 0 0) false.

Definition scanLines (st : Scan) (lines : list jsstring) : Scan :=
  fold_left step lines st.

Definition countCodeLines (lines : list jsstring) : LineCounts :=
  tally (scanLines initialScan lines).


(** ** Numbers that need not be finite

    Every count of the script is an integer and is modelled as a [Z].  The
    quotients of the report are IEEE doubles: a division by zero gives
    [NaN] or an infinity, which is what the report-level statements are
    about.  A finite value is kept as an exact rational: dividing by the
    power of two 1024 is exact on doubles, the rounding of the other
    quotients is not modelled and no statement below depends on it. *)

Inductive number : Type :=
| Finite (q : Q)
| NaN
| PosInfinity
| NegInfinity.

Definition ofZ (z : Z) : number := Finite (inject_Z z).

(** [a / b] for two integer-valued numbers. *)
Definition divZ (a b : Z) : number :=
  if b =? 0 then
    if a =? 0 then NaN
    else if 0 <? a then PosInfinity else NegInfinity
  else Finite (inject_Z a / inject_Z b)%Q.

(** [x / d] and [x * d] for a positive finite constant [d]. *)
Definition divBy (x : number) (d : Q) : number :=
  match x with
  | Finite q => Finite (q / d)%Q
  | other => other
  end.

Definition mulBy (x : number) (d : Q) : number :=
  match x with
  | Finite q => Finite (q * d)%Q
  | other => other
  end.

(** [x >= d] for a finite constant [d]; every comparison with NaN is
    false. *)
Definition geNum (x : number) (d : Q) : bool :=
  match x with
  | Finite q => Qle_bool d q
  | PosInfinity => true
  | NaN | NegInfinity => false
  end.

(** [Math.round]: the nearest integer, a tie going up. *)
Definition mathRound (x : number) : number :=
  match x with
  | Finite q => Finite (inject_Z (Qfloor (q + (1 # 2))%Q))
  | other => other
  end.

(** The decimal digits of a non-negative integer. *)
Definition decimal (n : Z) : jsstring :=
  lit (DecimalString.NilZero.string_of_uint (N.to_uint (Z.to_N n))).

(** The integer [n] for which [n / 10 - x] is closest to zero, the
    larger one on a tie ([x] is not negative). *)
Definition nearestTenth (x : Q) : Z := Qfloor (x * 10 + (1 # 2))%Q.

(** [x.toFixed(1)].  A value that is not finite is printed by its name.
    From 10^21 on [toFixed] falls back to the exponent notation of
    [ToString], which is outside this model: the result is [None]. *)
Definition toFixed1 (x : number) : option jsstring :=
  match x with
  | NaN => Some (lit "NaN")
  | PosInfinity => Some (lit "Infinity")
  | NegInfinity => Some (lit "-Infinity")
  | Finite q =>
      let sign := if Qle_bool 0 q then [] else lit "-" in
      let x := Qabs q in
      if Qle_bool (inject_Z (10 ^ 21)) x then None
      else
        let n := nearestTenth x in
        Some (sign ++ decimal (n / 10) ++ lit "." ++ decimal (n mod 10))
  end.

(** ** [formatFileSize] *)

Definition units : list jsstring := [lit "B"; lit "KB"; lit "MB"; lit "GB"].

(** The condition of the [while] loop. *)
Definition keepsScaling (size : number) (unitIndex : nat) : bool :=
  geNum size 1024 && (unitIndex <? Nat.pred (List.length units))%nat.

(** The [while] loop; [fuel] bounds the number of iterations. *)
Fixpoint scaleLoop (fuel : nat) (size : number) (unitIndex : nat) : number * nat :=
  match fuel with
  | O => (size, unitIndex)
  | S fuel' =>
      if keepsScaling size unitIndex
      then scaleLoop fuel' (divBy size 1024) (S unitIndex)
      else (size, unitIndex)
  end.

(** The loop started as the function starts it.  Every iteration
    increments [unitIndex], which stays below [units.length - 1], so
    that many iterations are enough (lemma [scale_exits]). *)
Definition scale (bytes : number) : number * nat :=
  scaleLoop (Nat.pred (List.length units)) bytes 0.

Definition formatFileSize (bytes : number) : option jsstring :=
  let '(size, unitIndex) := scale bytes in
  match toFixed1 size with
  | Some digits => Some (digits ++ lit " " ++ nth unitIndex units [])
  | None => None
  end.

(** ** The ignore rules *)

(** The string [convertGitignoreToRegex] hands to [new RegExp]. *)
Definition regexPattern (pattern : jsstring) : jsstring :=
  let regexPattern :=
    replaceLit (lit "**") (lit ".*")
      (replaceChar 42 (lit "[^/]*")
        (replaceChar 46 (lit "\.") pattern)) in
  if endsWith (lit "/") pattern
  then dropLast regexPattern ++ lit "(/.*)?$"
  else regexPattern.

(** The same pipeline without the [.replace(/\*\*/g, '.*')] stage. *)
Definition regexPattern_singleStar (pattern : jsstring) : jsstring :=
  let regexPattern :=
    replaceChar 42 (lit "[^/]*")
      (replaceChar 46 (lit "\.") pattern) in
  if endsWith (lit "/") pattern
  then dropLast regexPattern ++ lit "(/.*)?$"
  else regexPattern.

Definition ignoredNames : list jsstring :=
  [lit "node_modules"; lit "dist"; lit "build"; lit ".git"; lit ".vscode";
   lit ".idea"; lit ".next"; lit "coverage"; lit ".nyc_output"; lit "out";
   lit "lib"].

(** [this.ignoredDirs], the [Set] built by the constructor. *)
Definition ignoredDirs : gset jsstring := list_to_set ignoredNames.

(** The file system as the script observes it: [cwd] is
    [process.cwd()], [readFileSync p] is [fs.readFileSync(p, 'utf8')] and
    [statSize p] is [fs.statSync(p).size].  A call that throws is [None]. *)
Record FileSystem : Type := mkFS {
  cwd : jsstring;
  existsSync : jsstring -> bool;
  readFileSync : jsstring -> option jsstring;
  statSize : jsstring -> option Z
}.

(** What [readdirSync(dir, { withFileTypes: true })] yields below a
    directory: the entries with their kinds.  The entries of a directory
    that cannot be read are [None]. *)
#[local] Set Warnings "-register-all".

Inductive Dirent : Type :=
| File (name : jsstring)
| Directory (name : jsstring) (entries : option (list Dirent))
| Other (name : jsstring).

Definition direntName (item : Dirent) : jsstring :=
  match item with
  | File name | Directory name _ | Other name => name
  end.

Record FileHandle : Type := mkHandle {
  fullPath : jsstring;
  relativePath : jsstring;
  name : jsstring
}.

Section Analyzer.

(** [path.sep], and the regular-expression engine: [new RegExp(source)],
    which throws on a malformed source, and [regex.test(s)] (the regexes
    carry no flag, so [test] has no state). *)
Variable sep : N.
Variable RegExp : Type.
Variable newRegExp : jsstring -> option RegExp.
Variable test : RegExp -> jsstring -> bool.

(** [path.join(dir, name)] for a normalised directory and an entry name. *)
Definition pathJoin (dir name : jsstring) : jsstring :=
  if endsWith [sep] dir then dir ++ name else dir ++ [sep] ++ name.

(** [path.relative(process.cwd(), path.join(dir, name))] for a directory
    at or below the working directory, given the relative path [rel] of
    that directory (empty for the working directory itself). *)
Definition pathRelative (rel name : jsstring) : jsstring :=
  if isEmpty rel then name else rel ++ [sep] ++ name.

Definition convertGitignoreToRegex (pattern : jsstring) : option RegExp :=
  newRegExp (regexPattern pattern).

Definition convertGitignoreToRegex_singleStar (pattern : jsstring) : option RegExp :=
  newRegExp (regexPattern_singleStar pattern).

(** [array.map(f)] for an [f] that may throw: the first exception
    abandons the whole map. *)
Fixpoint mapThrowing {A B : Type} (f : A -> option B) (l : list A) : option (list B) :=
  match l with
  | [] => Some []
  | x :: more =>
      match f x with
      | None => None
      | Some y => option_map (cons y) (mapThrowing f more)
      end
  end.

(** [line && !line.startsWith('#')]. *)
Definition isPatternLine (line : jsstring) : bool :=
  negb (isEmpty line) && negb (startsWith (lit "#") line).

(** [loadGitignore], as the value [this.gitignorePatterns] has after the
    constructor: the field keeps its initial [[]] when the file is
    missing and when the [try] block throws. *)
Definition loadGitignore (fs : FileSystem) : list RegExp :=
  let gitignorePath := pathJoin (cwd fs) (lit ".gitignore") in
  if negb (existsSync fs gitignorePath) then []
  else
    match readFileSync fs gitignorePath with
    | None => []
    | Some content =>
        match mapThrowing convertGitignoreToRegex
                (List.filter isPatternLine (map trim (split [10%N] content))) with
        | Some patterns => patterns
        | None => []
        end
    end.

Section Walk.

Variable gitignorePatterns : list RegExp.

Definition shouldIgnorePath (relativePath : jsstring) : bool :=
  let pathParts := split [sep] relativePath in
  if existsb (fun part => bool_decide (part ∈ ignoredDirs)) pathParts then true
  else existsb (fun regex => test regex relativePath) gitignorePatterns.

(** [/\.(ts|tsx)$/.test(name)]. *)
Definition isTsName (name : jsstring) : bool :=
  endsWith (lit ".ts") name || endsWith (lit ".tsx") name.

(** The body of the [for] loop of [findTsFiles] for one entry of the
    directory [dir], whose relative path is [rel]; [files] is the shared
    accumulator, and the recursion into a directory is the inner fold. *)
Fixpoint visit (dir rel : jsstring) (files : list FileHandle) (item : Dirent)
  : list FileHandle :=
  let fullPath := pathJoin dir (direntName item) in
  let relativePath := pathRelative rel (direntName item) in
  if shouldIgnorePath relativePath then files
  else
    match item with
    | Directory _ (Some entries) => fold_left (visit fullPath relativePath) entries files
    | Directory _ None => files
    | File name =>
        if isTsName name
        then files ++ [mkHandle fullPath relativePath name]
        else files
    | Other _ => files
    end.

(** [findTsFiles()] with its default arguments: the walk starts at the
    working directory with an empty accumulator.  [root] is what
    [readdirSync] yields there. *)
Definition findTsFiles (fs : FileSystem) (root : option (list Dirent)) : list FileHandle :=
  match root with
  | Some entries => fold_left (visit (cwd fs) []) entries []
  | None => []
  end.

(** The files of an accumulator all passed [shouldIgnorePath]. *)
Definition allKept (files : list FileHandle) : Prop :=
  Forall (fun file => shouldIgnorePath (relativePath file) = false) files.

(** Where the walk finds a file: [Found dir rel item file] says that
    [file] lies at or below the entry [item] of the directory [dir]
    (relative path [rel]), that its name has one of the two extensions,
    and that neither its relative path nor that of a directory on the
    way down to it is ignored. *)
Inductive Found : jsstring -> jsstring -> Dirent -> FileHandle -> Prop :=
| Found_file dir rel name :
    shouldIgnorePath (pathRelative rel name) = false ->
    isTsName name = true ->
    Found dir rel (File name)
          (mkHandle (pathJoin dir name) (pathRelative rel name) name)
| Found_below dir rel name entries item file :
    shouldIgnorePath (pathRelative rel name) = false ->
    In item entries ->
    Found (pathJoin dir name) (pathRelative rel name) item file ->
    Found dir rel (Directory name (Some entries)) file.

End Walk.

End Analyzer.

(** ** [analyzeFile] *)

(** The statistics of one file.  The script spreads the result of
    [countCodeLines] into the object; here it is the field [counts]. *)
Record FileStatistics : Type := mkStats {
  totalLines : Z;
  counts : LineCounts;
  fileSize : Z
}.

Definition zeroStatistics : FileStatistics :=
  mkStats 0 (mkCounts 0 0 0 0) 0.

Definition analyzeFile (fs : FileSystem) (filePath : jsstring) : FileStatistics :=
  match readFileSync fs filePath with
  | None => zeroStatistics
  | Some content =>
      let lines := split [10%N] content in
      match statSize fs filePath with
      | None => zeroStatistics
      | Some size =>
          mkStats (Z.of_nat (List.length lines)) (countCodeLines lines) size
      end
  end.

(** ** [generateReport] and [showRankings] *)

(** A file handle merged with its statistics. *)
Record FileStat : Type := mkFileStat {
  handle : FileHandle;
  stats : FileStatistics
}.

Definition addStats (acc file : FileStatistics) : FileStatistics :=
  mkStats (totalLines acc + totalLines file)
          (mkCounts (codeLines (counts acc) + codeLines (counts file))
                    (commentLines (counts acc) + commentLines (counts file))
                    (emptyLines (counts acc) + emptyLines (counts file))
                    (importLines (counts acc) + importLines (counts file)))
          (fileSize acc + fileSize file).

(** The [reduce] of [generateReport]. *)
Definition totalsOf (fileStats : list FileStat) : FileStatistics :=
  fold_left (fun acc file => addStats acc (stats file)) fileStats zeroStatistics.

(** [((count / total) * 100).toFixed(1)] followed by the percent sign. *)
Definition percentage (count total : Z) : option jsstring :=
  option_map (fun digits => digits ++ lit "%")
             (toFixed1 (mulBy (divZ count total) 100)).

(** What [generateReport] prints, without the fixed labels: every field
    is the interpolated part of one [console.log]. *)
Record Report : Type := mkReport {
  totalFiles : Z;
  totals : FileStatistics;
  totalSize : option jsstring;
  codePercent : option jsstring;
  commentPercent : option jsstring;
  importPercent : option jsstring;
  emptyPercent : option jsstring;
  averageLines : number;
  averageCodeLines : number;
  averageSize : option jsstring
}.

Definition generateReport (fileStats : list FileStat) : Report :=
  let totalFiles := Z.of_nat (List.length fileStats) in
  let totals := totalsOf fileStats in
  mkReport totalFiles totals
    (formatFileSize (ofZ (fileSize totals)))
    (percentage (codeLines (counts totals)) (totalLines totals))
    (percentage (commentLines (counts totals)) (totalLines totals))
    (percentage (importLines (counts totals)) (totalLines totals))
    (percentage (emptyLines (counts totals)) (totalLines totals))
    (mathRound (divZ (totalLines totals) totalFiles))
    (mathRound (divZ (codeLines (counts totals)) totalFiles))
    (formatFileSize (divZ (fileSize totals) totalFiles)).

(** [[...fileStats].sort((a, b) => b[sortBy] - a[sortBy])]: a stable
    sort, the larger key first. *)
Fixpoint insertDescending (key : FileStat -> Z) (x : FileStat) (sorted : list FileStat)
  : list FileStat :=
  match sorted with
  | [] => [x]
  | y :: more =>
      if key x <? key y then y :: insertDescending key x more
      else x :: sorted
  end.

Definition sortDescending (key : FileStat -> Z) (l : list FileStat) : list FileStat :=
  fold_right (insertDescending key) [] l.

(** The entries [showRankings] prints. *)
Definition showRankings (fileStats : list FileStat) (sortBy : FileStat -> Z) (limit : nat)
  : list FileStat :=
  firstn limit (sortDescending sortBy fileStats).

(** ** [analyze] *)

Inductive Output : Type :=
| NoFilesFound
| Reported (report : Report) (ranking : list FileStat).

(** [tsFiles.map(...).filter(file => file.totalLines > 0)]. *)
Definition fileStatsOf (fs : FileSystem) (tsFiles : list FileHandle) : list FileStat :=
  List.filter (fun file => 0 <? totalLines (stats file))
         (map (fun file => mkFileStat file (analyzeFile fs (fullPath file))) tsFiles).

Definition analyzeFiles (fs : FileSystem) (tsFiles : list FileHandle) : Output :=
  if (List.length tsFiles =? 0)%nat then NoFilesFound
  else
    let fileStats := fileStatsOf fs tsFiles in
    Reported (generateReport fileStats)
             (showRankings fileStats (fun file => codeLines (counts (stats file))) 5).

Section Analyze.

Variable sep : N.
Variable RegExp : Type.
Variable newRegExp : jsstring -> option RegExp.
Variable test : RegExp -> jsstring -> bool.

(** The constructor followed by [analyze()], on a file system [fs] whose
    working directory holds [root]. *)
Definition analyze (fs : FileSystem) (root : option (list Dirent)) : Output :=
  let gitignorePatterns := loadGitignore sep RegExp newRegExp fs in
  analyzeFiles fs (findTsFiles sep RegExp test gitignorePatterns fs root).

End Analyze.

(** ** Inputs and notions the statements use *)

(** Scenarios A, B and C of the specification. *)
Definition scenarioA : list jsstring := [lit "// comment"].

Definition scenarioC : list jsstring := [lit "import { x } from 'y';"].

Definition scenarioB : list jsstring :=
  [lit "/* start"; lit "still comment"; lit "end */ const x = 1;"].

(** What the percentage of a count is when the total is zero. *)
Definition percentOfZero (count : Z) : jsstring :=
  if count =? 0 then lit "NaN%"
  else if 0 <? count then lit "Infinity%" else lit "-Infinity%".

(** The percentages a guard would print. *)
Definition guardedPercent (shown : option jsstring) : Prop :=
  shown = Some (lit "0%") \/ shown = Some (lit "0.0%") \/ shown = Some (lit "N/A").

(** A file system in which no file can be read. *)
Definition unreadableFS : FileSystem :=
  mkFS (lit "/w") (fun _ => false) (fun _ => None) (fun _ => Some 12).

(** A file system in which every file is empty and can be read, but no
    file can be stat-ed. *)
Definition statlessFS : FileSystem :=
  mkFS (lit "/w") (fun _ => false) (fun _ => Some []) (fun _ => None).

(** A file system in which every file is empty and has size 0. *)
Definition emptyFilesFS : FileSystem :=
  mkFS (lit "/w") (fun _ => false) (fun _ => Some []) (fun _ => Some 0).

(** ** Notions the further statements use *)

(** A line is blank when [trim] leaves nothing of it. *)
Definition isBlank (line : jsstring) : bool := isEmpty (trim line).

Definition countBlank (lines : list jsstring) : Z :=
  Z.of_nat (List.length (List.filter isBlank lines)).

(** The field-wise sum of two results of [countCodeLines]. *)
Definition addCounts (a b : LineCounts) : LineCounts :=
  mkCounts (codeLines a + codeLines b) (commentLines a + commentLines b)
           (emptyLines a + emptyLines b) (importLines a + importLines b).

(** A loop state with its counters raised by [d]. *)
Definition shift (d : LineCounts) (st : Scan) : Scan :=
  mkScan (addCounts d (tally st)) (inMultiLineComment st).

(** The number of line feeds of a text. *)
Definition countNewlines (content : jsstring) : Z :=
  Z.of_nat (List.length (List.filter (N.eqb 10) content)).

(** The lines of the ignore-file that [loadGitignore] compiles: the
    value of its chain before the last [map]. *)
Definition patternLines (content : jsstring) : list jsstring :=
  List.filter isPatternLine (map trim (split [10%N] content)).

(** What the dot stage and the star stage of [convertGitignoreToRegex]
    make of one code unit. *)
Definition translateChar (c : N) : jsstring :=
  if (c =? 46)%N then lit "\."
  else if (c =? 42)%N then lit "[^/]*"
  else [c].

(** A list of files in descending order of [key]. *)
Definition descending (key : FileStat -> Z) (l : list FileStat) : Prop :=
  StronglySorted (fun a b => key b <= key a) l.

(** Both calls of the [try] block of [analyzeFile] return. *)
Definition readable (fs : FileSystem) (filePath : jsstring) : bool :=
  match readFileSync fs filePath, statSize fs filePath with
  | Some _, Some _ => true
  | _, _ => false
  end.

(** A small tree and a regular-expression engine without patterns. *)
Definition sampleEntries : list Dirent :=
  [File (lit "a.ts");
   Directory (lit "src") (Some [File (lit "b.tsx"); File (lit "c.js")]);
   Directory (lit "node_modules") (Some [File (lit "e.ts")]);
   Directory (lit "locked") None].

Definition noMatch (regex : unit) (s : jsstring) : bool := false.

Definition sampleHandle : FileHandle :=
  mkHandle (lit "/w/a.ts") (lit "a.ts") (lit "a.ts").

(** * Properties *)

(** ** Facts about the string primitives *)

Section StringFacts.

Implicit Types (s p : jsstring) (c : N).

Lemma trimStart_suffix s : exists pre, s = pre ++ trimStart s.
Proof.
  induction s as [|c s [pre IH]]; simpl.
  - now exists [].
  - destruct (isSpace c).
    + exists (c :: pre). simpl. now f_equal.
    + now exists [].
Qed.

Lemma trimStart_head s c r : trimStart s = c :: r -> isSpace c = false.
Proof.
  induction s as [|d s IH]; simpl; [discriminate|].
  destruct (isSpace d) eqn:E; [exact IH|].
  intros [= <- _]. exact E.
Qed.

Lemma trimEnd_prefix s : exists post, s = trimEnd s ++ post.
Proof.
  unfold trimEnd. destruct (trimStart_suffix (rev s)) as [pre E].
  exists (rev pre).
  rewrite <- rev_app_distr, <- E. symmetry. apply rev_involutive.
Qed.

(** A trimmed string does not begin with a space. *)
Lemma trim_head s c r : trim s = c :: r -> isSpace c = false.
Proof.
  unfold trim. intros E.
  destruct (trimEnd_prefix (trimStart s)) as [post E'].
  rewrite E in E'. simpl in E'.
  now apply trimStart_head in E'.
Qed.

Lemma trimStart_last l c : isSpace c = false -> trimStart (l ++ [c]) <> [].
Proof.
  intros Hc. induction l as [|d l IH]; simpl.
  - now rewrite Hc.
  - destruct (isSpace d); [exact IH | discriminate].
Qed.

(** A string that begins with something else than a space is not
    trimmed to nothing. *)
Lemma trim_cons c s : isSpace c = false -> isEmpty (trim (c :: s)) = false.
Proof.
  intros Hc. unfold trim, trimEnd. simpl trimStart. rewrite Hc.
  simpl rev.
  pose proof (trimStart_last (rev s) c Hc) as Hne.
  destruct (trimStart (rev s ++ [c])) as [|d t] eqn:E; [congruence|].
  simpl. now destruct (rev t ++ [d]) eqn:E'; [destruct (rev t); discriminate|].
Qed.

Lemma split_from_nonempty sep skip s : split_from sep skip s <> [].
Proof.
  revert skip. induction s as [|c s IH]; intros skip; simpl; [discriminate|].
  destruct skip; [|apply IH].
  destruct (startsWith sep (c :: s)); [discriminate|].
  now destruct (split_from sep 0 s).
Qed.

Lemma split_length sep s : (1 <= List.length (split sep s))%nat.
Proof.
  unfold split. pose proof (split_from_nonempty sep 0 s).
  destruct (split_from sep 0 s); simpl; [congruence | lia].
Qed.

(** The first piece of a split keeps the head of the string, unless the
    string begins with the separator. *)
Lemma first_split_cons sep c s :
  startsWith sep (c :: s) = false ->
  exists piece, first (split sep (c :: s)) = c :: piece.
Proof.
  intros H. unfold split. simpl split_from. rewrite H.
  destruct (split_from sep 0 s); simpl; eauto.
Qed.

Lemma includes_nil_false sub : includes sub [] = false -> startsWith sub [] = false.
Proof. simpl. now rewrite orb_false_r. Qed.

Lemma includes_head sub s : includes sub s = false -> startsWith sub s = false.
Proof. destruct s; simpl; intros H; now apply orb_false_iff in H. Qed.

Lemma includes_tail sub c s : includes sub (c :: s) = false -> includes sub s = false.
Proof. simpl. intros H. now apply orb_false_iff in H. Qed.

(** Replacing a literal that does not occur changes nothing. *)
Lemma replaceLit_absent pat by_ s :
  includes pat s = false -> replaceLit pat by_ s = s.
Proof.
  unfold replaceLit. induction s as [|c s IH]; intros H; [reflexivity|].
  simpl replaceLit_from. rewrite (includes_head _ _ H).
  f_equal. apply IH. now apply includes_tail in H.
Qed.

Lemma spanExtent_open s n : spanExtent s = Some n -> startsWith blockOpen s = true.
Proof. unfold spanExtent. now destruct (startsWith blockOpen s). Qed.

(** A complete block comment begins with an opener. *)
Lemma matchBlock_includes s : matchBlock s = true -> includes blockOpen s = true.
Proof.
  induction s as [|c s IH]; simpl matchBlock.
  - destruct (spanExtent []) eqn:E; [|discriminate].
    intros _. now apply spanExtent_open in E.
  - destruct (spanExtent (c :: s)) eqn:E.
    + intros _. apply spanExtent_open in E. simpl includes.
      simpl in E. now rewrite E.
    + intros H. simpl includes. rewrite (IH H). apply orb_true_r.
Qed.

End StringFacts.

(** ** Facts about the classifier *)

Ltac break_if :=
  match goal with
  | |- context [if ?b then _ else _] => destruct b eqn:?
  end.

Ltac proj :=
  cbn [tally inMultiLineComment codeLines commentLines emptyLines importLines].

Ltac unfold_classifier :=
  unfold step, classify, classifyLineComment, countRest,
    incCode, incComment, incEmpty, incImport, setInComment.

Lemma scanLines_cons st line lines :
  scanLines st (line :: lines) = scanLines (step st line) lines.
Proof. reflexivity. Qed.

Lemma scanLines_app st l1 l2 :
  scanLines st (l1 ++ l2) = scanLines (scanLines st l1) l2.
Proof. unfold scanLines. apply fold_left_app. Qed.

(** What is left of a line outside a block comment is counted as code
    when it begins with something else than a space or a line comment. *)
Lemma classifyLineComment_code st c r :
  isSpace c = false ->
  startsWith lineComment (c :: r) = false ->
  codeLines (tally (classifyLineComment st (c :: r))) = codeLines (tally st) + 1
  /\ inMultiLineComment (classifyLineComment st (c :: r)) = inMultiLineComment st.
Proof.
  intros Hc Hs. unfold classifyLineComment. rewrite Hs.
  destruct (first_split_cons lineComment c r Hs) as [piece ->].
  destruct (includes lineComment (c :: r)).
  - unfold countRest. rewrite (trim_cons c piece Hc).
    destruct (isImportExport _); split; reflexivity.
  - unfold countRest. cbn [isEmpty].
    destruct (isImportExport _); split; reflexivity.
Qed.

(** A line comment never opens or closes a block. *)
Lemma classifyLineComment_mode st p :
  inMultiLineComment (classifyLineComment st p) = inMultiLineComment st.
Proof.
  unfold classifyLineComment, countRest.
  repeat break_if; reflexivity.
Qed.

(** Every iteration adds at most one to [codeLines], and nothing on a
    blank line. *)
Lemma step_code_bound st line :
  let st' := step st line in
  codeLines (tally st) <= codeLines (tally st') /\
  emptyLines (tally st) <= emptyLines (tally st') /\
  codeLines (tally st') + emptyLines (tally st')
    <= codeLines (tally st) + emptyLines (tally st) + 1.
Proof.
  destruct st as [[a b c d] f]. unfold_classifier. proj.
  repeat break_if; proj; lia.
Qed.

(** Every iteration adds at most two to [commentLines], and nothing on
    a blank line. *)
Lemma step_comment_bound st line :
  let st' := step st line in
  commentLines (tally st) <= commentLines (tally st') /\
  commentLines (tally st') + 2 * emptyLines (tally st')
    <= commentLines (tally st) + 2 * emptyLines (tally st) + 2.
Proof.
  destruct st as [[a b c d] f]. unfold_classifier. proj.
  repeat break_if; proj; lia.
Qed.

Lemma scanLines_bounds lines : forall st,
  let st' := scanLines st lines in
  codeLines (tally st') + emptyLines (tally st')
    <= codeLines (tally st) + emptyLines (tally st) + Z.of_nat (List.length lines)
  /\ commentLines (tally st') + 2 * emptyLines (tally st')
    <= commentLines (tally st) + 2 * emptyLines (tally st)
       + 2 * Z.of_nat (List.length lines).
Proof.
  induction lines as [|line lines IH]; intros st.
  - simpl. lia.
  - rewrite scanLines_cons. specialize (IH (step st line)).
    pose proof (step_code_bound st line) as Hc.
    pose proof (step_comment_bound st line) as Hm.
    cbv zeta in *. rewrite length_cons. lia.
Qed.

(** The half of the bound of section 8 that the code keeps: [codeLines]
    is at most the number of lines that are not blank; [commentLines]
    is at most twice that number. *)
Lemma countCodeLines_bounds lines :
  let r := countCodeLines lines in
  codeLines r <= Z.of_nat (List.length lines) - emptyLines r /\
  commentLines r <= 2 * (Z.of_nat (List.length lines) - emptyLines r).
Proof.
  pose proof (scanLines_bounds lines initialScan) as H.
  unfold countCodeLines. cbv zeta in *. simpl in H. lia.
Qed.

(** A blank line counts in [emptyLines] and nowhere else, and leaves
    the mode as it is. *)
Lemma step_blank st line :
  isEmpty (trim line) = true ->
  step st line = incEmpty st.
Proof. intros H. unfold step. now rewrite H. Qed.

(** Outside a block comment every text that is not empty is counted as
    a comment or as code. *)
Lemma classify_counted st p :
  isEmpty p = false ->
  commentLines (tally st) < commentLines (tally (classify st p))
  \/ codeLines (tally st) < codeLines (tally (classify st p)).
Proof.
  intros Hp. destruct st as [[a b c d] f].
  unfold classify, classifyLineComment.
  destruct (includes blockOpen p && negb (matchBlock p)).
  - left. unfold incCode, incComment, setInComment. break_if; proj; lia.
  - destruct (matchBlock p).
    + left. unfold countRest, incCode, incComment, incImport.
      repeat break_if; proj; lia.
    + destruct (startsWith lineComment p); [left; cbn; lia|].
      destruct (includes lineComment p).
      * left. unfold countRest, incCode, incComment, incImport.
        repeat break_if; proj; lia.
      * right. unfold countRest. rewrite Hp.
        unfold incCode, incImport. break_if; proj; lia.
Qed.

(** Every line is counted in some category, but for the line that
    closes a block comment with nothing behind the terminator. *)
Lemma step_counted st line :
  ~ (inMultiLineComment st = true
     /\ includes blockClose (trim line) = true
     /\ isEmpty (afterTerminator (trim line)) = true) ->
  emptyLines (tally st) < emptyLines (tally (step st line))
  \/ commentLines (tally st) < commentLines (tally (step st line))
  \/ codeLines (tally st) < codeLines (tally (step st line)).
Proof.
  intros Hn. unfold step.
  destruct (isEmpty (trim line)) eqn:Ht.
  - left. destruct st as [[a b c d] f]. cbn. lia.
  - right. destruct (inMultiLineComment st) eqn:Hin.
    + destruct (includes blockClose (trim line)) eqn:Hc.
      * destruct (isEmpty (afterTerminator (trim line))) eqn:Ha.
        { exfalso. apply Hn. repeat split; reflexivity. }
        pose proof (classify_counted (setInComment false st) _ Ha) as H.
        exact H.
      * left. destruct st as [[a b c d] f]. cbn. lia.
    + now apply classify_counted.
Qed.

Lemma includes_not_empty sub s :
  isEmpty sub = false -> includes sub s = true -> isEmpty s = false.
Proof.
  destruct s; [|reflexivity]. destruct sub; [discriminate|]. discriminate.
Qed.

Lemma matchBlock_not_empty s : matchBlock s = true -> isEmpty s = false.
Proof. destruct s; [discriminate | reflexivity]. Qed.

Lemma classifyLineComment_comment st p :
  commentLines (tally st) <= commentLines (tally (classifyLineComment st p)).
Proof.
  destruct st as [[a b c d] f].
  unfold classifyLineComment, countRest, incCode, incComment, incImport.
  repeat break_if; proj; lia.
Qed.

Lemma classify_empty st p :
  emptyLines (tally (classify st p)) = emptyLines (tally st).
Proof.
  destruct st as [[a b c d] f]. unfold_classifier.
  repeat break_if; reflexivity.
Qed.

(** Text that holds no opener and does not begin with a space or a line
    comment is one line of code. *)
Lemma classify_plain_code st c r :
  isSpace c = false ->
  startsWith lineComment (c :: r) = false ->
  includes blockOpen (c :: r) = false ->
  codeLines (tally (classify st (c :: r))) = codeLines (tally st) + 1
  /\ inMultiLineComment (classify st (c :: r)) = inMultiLineComment st.
Proof.
  intros Hc Hs Ho. unfold classify. rewrite Ho. cbn [andb].
  destruct (matchBlock (c :: r)) eqn:Hm.
  - apply matchBlock_includes in Hm. congruence.
  - now apply classifyLineComment_code.
Qed.

(** ** The claims about the classifier *)

Example scenarioA_counts : countCodeLines scenarioA = mkCounts 0 1 0 0.
Proof. reflexivity. Qed.

Example scenarioC_counts : countCodeLines scenarioC = mkCounts 1 0 0 1.
Proof. reflexivity. Qed.


(** C1, as the specification states it, fails: on scenario B the
    classifier does not return [commentLines = 3] and [codeLines = 0],
    because the text behind the terminator is classified. *)
Lemma scenarioB_not_three_zero :
  ~ (commentLines (countCodeLines scenarioB) = 3
     /\ codeLines (countCodeLines scenarioB) = 0).
Proof. vm_compute. intros [H _]. discriminate H. Qed.

(** C1, amended: inside a block comment, on a line that holds the
    terminator, the classifier leaves the block and classifies the text
    behind the first terminator by the rules for a line outside a block
    comment: the mode, [codeLines] and [importLines] after the line are
    those of [classify] on that text, and [emptyLines] is unchanged.  In
    particular text that is not empty, holds no opener and does not begin
    with a line comment makes the line a line of code; on scenario B
    [codeLines] is 1. *)
Theorem closing_line_rest_classified (st : Scan) (line : jsstring) :
  inMultiLineComment st = true ->
  includes blockClose (trim line) = true ->
  let rest := afterTerminator (trim line) in
  let st' := step st line in
  let outside := classify (setInComment false st) rest in
  (inMultiLineComment st' = inMultiLineComment outside
   /\ codeLines (tally st') = codeLines (tally outside)
   /\ importLines (tally st') = importLines (tally outside)
   /\ emptyLines (tally st') = emptyLines (tally st))
  /\ (isEmpty rest = false ->
      startsWith lineComment rest = false ->
      includes blockOpen rest = false ->
      codeLines (tally st') = codeLines (tally st) + 1
      /\ inMultiLineComment st' = false)
  /\ codeLines (countCodeLines scenarioB) = 1.
Proof.
  intros Hin Hc rest st' outside.
  assert (Hstep : st' = outside).
  { subst st' outside rest. unfold step.
    rewrite (includes_not_empty blockClose _ eq_refl Hc), Hin, Hc.
    reflexivity. }
  split; [|split].
  - rewrite Hstep. repeat split; try reflexivity.
    subst outside. now rewrite classify_empty.
  - intros Hne Hs Ho. rewrite Hstep. subst outside.
    destruct rest as [|c r] eqn:Er; [discriminate|].
    assert (Hsp : isSpace c = false).
    { subst rest. unfold afterTerminator in Er. now apply trim_head in Er. }
    destruct (classify_plain_code (setInComment false st) c r Hsp Hs Ho) as [H1 H2].
    split; [exact H1 | exact H2].
  - vm_compute. reflexivity.
Qed.

Lemma closing_line_rest_classified_witness :
  inMultiLineComment (scanLines initialScan (firstn 2 scenarioB)) = true
  /\ codeLines (tally (step (scanLines initialScan (firstn 2 scenarioB))
                            (lit "end */ const x = 1;")))
     = codeLines (tally (scanLines initialScan (firstn 2 scenarioB))) + 1.
Proof.
  split; [reflexivity|].
  apply (closing_line_rest_classified
           (scanLines initialScan (firstn 2 scenarioB))
           (lit "end */ const x = 1;")); reflexivity.
Defined.

(** C2: the line that closes a block comment with nothing behind the
    terminator is counted in no category.  On the two lines [/*] and
    [*/] the counters hold one comment line and nothing else, and the
    second line leaves all four counters as they were. *)
Theorem closing_line_uncounted :
  let lines := [lit "/*"; lit "*/"] in
  Z.of_nat (List.length lines) = 2
  /\ countCodeLines lines = mkCounts 0 1 0 0
  /\ tally (step (scanLines initialScan [lit "/*"]) (lit "*/"))
     = tally (scanLines initialScan [lit "/*"]).
Proof. vm_compute. repeat split; reflexivity. Qed.

(** C3: a line with a complete block comment followed by a line comment
    adds two to [commentLines].  On the single line [/* a */ // b] the
    classifier returns [commentLines = 2] while one line is not blank. *)
Theorem comment_counted_twice :
  let lines := [lit "/* a */ // b"] in
  let r := countCodeLines lines in
  commentLines r = 2
  /\ Z.of_nat (List.length lines) - emptyLines r = 1.
Proof. vm_compute. split; reflexivity. Qed.

(** C10, as stated, fails: the line [/* a */ // /* b] holds a complete
    block comment and a trailing opener that is never closed, and is
    not counted as code. *)
Lemma opener_behind_line_comment_not_code :
  let line := lit "/* a */ // /* b" in
  inMultiLineComment initialScan = false
  /\ matchBlock (trim line) = true
  /\ includes blockOpen (trim (stripBlocks (trim line))) = true
  /\ ~ (codeLines (tally (step initialScan line))
        = codeLines (tally initialScan) + 1).
Proof. vm_compute. repeat split; try reflexivity. discriminate. Qed.

(** C10, amended: outside a block comment, a line that holds a complete
    block comment and, once the complete spans are deleted, still an
    opener does not enter block-comment mode; [commentLines] grows; the
    line is counted as code unless what is left begins with a line
    comment; the lines that follow are classified from a state outside
    a block comment. *)
Theorem complete_block_then_opener (st : Scan) (line : jsstring) :
  inMultiLineComment st = false ->
  matchBlock (trim line) = true ->
  let rest := trim (stripBlocks (trim line)) in
  includes blockOpen rest = true ->
  let st' := step st line in
  inMultiLineComment st' = false
  /\ commentLines (tally st) < commentLines (tally st')
  /\ (startsWith lineComment rest = false ->
      codeLines (tally st') = codeLines (tally st) + 1)
  /\ (forall following,
        scanLines st (line :: following) = scanLines st' following).
Proof.
  intros Hin Hm rest Ho st'.
  assert (Hstep : st' = classifyLineComment (incComment st) rest).
  { subst st' rest. unfold step.
    rewrite (matchBlock_not_empty _ Hm), Hin. unfold classify.
    rewrite Hm. cbn [negb]. rewrite andb_false_r. reflexivity. }
  split; [|split; [|split]].
  - rewrite Hstep, classifyLineComment_mode.
    destruct st as [[a b c d] f]. exact Hin.
  - rewrite Hstep.
    pose proof (classifyLineComment_comment (incComment st) rest) as H.
    destruct st as [[a b c d] f]. cbn in H |- *. lia.
  - intros Hs. rewrite Hstep.
    destruct rest as [|c r] eqn:Er; [discriminate|].
    assert (Hsp : isSpace c = false) by (subst rest; now apply trim_head in Er).
    destruct (classifyLineComment_code (incComment st) c r Hsp Hs) as [H _].
    rewrite H. destruct st as [[a b c' d] f]. reflexivity.
  - intros following. apply scanLines_cons.
Qed.

Lemma complete_block_then_opener_witness :
  inMultiLineComment (step initialScan (lit "/* a */ x /* b")) = false
  /\ codeLines (tally (step initialScan (lit "/* a */ x /* b"))) = 1.
Proof.
  pose proof (complete_block_then_opener initialScan (lit "/* a */ x /* b")
                eq_refl eq_refl eq_refl) as [H1 [_ [H3 _]]].
  split; [exact H1 | exact (H3 eq_refl)].
Defined.

(** ** The ignore rules and the walk *)

Lemma includes_skip a p c s :
  (a =? c)%N = false -> includes (a :: p) (c :: s) = includes (a :: p) s.
Proof. intros H. cbn [includes startsWith]. now rewrite H. Qed.

(** After the single-star stage no star begins the string and no two
    stars are adjacent: every star is the last code unit of a copy of
    the replacement, which begins with a bracket. *)
Lemma replaceChar_star_apart (t : jsstring) :
  startsWith (lit "*") (replaceChar 42 (lit "[^/]*") t) = false
  /\ includes (lit "**") (replaceChar 42 (lit "[^/]*") t) = false.
Proof.
  change (lit "**") with [42%N; 42%N]. change (lit "*") with [42%N].
  change (lit "[^/]*") with [91%N; 94%N; 47%N; 93%N; 42%N].
  induction t as [|d t [IH1 IH2]]; [split; reflexivity|].
  cbn [replaceChar]. destruct (d =? 42)%N eqn:Ed.
  - split; [reflexivity|].
    cbn [app]. do 4 (rewrite includes_skip by reflexivity).
    cbn [includes].
    change (startsWith [42%N; 42%N] (42%N :: ?r)) with (startsWith [42%N] r).
    now rewrite IH1, IH2.
  - assert (E : (42 =? d)%N = false) by (rewrite N.eqb_sym; exact Ed).
    split.
    + cbn [startsWith]. now rewrite E.
    + cbn [includes startsWith]. now rewrite E, IH2.
Qed.

Section WalkFacts.

Variable sep : N.
Variable RegExp : Type.
Variable test : RegExp -> jsstring -> bool.
Variable gitignorePatterns : list RegExp.

Local Abbreviation ignored := (shouldIgnorePath sep RegExp test gitignorePatterns).
Local Abbreviation walk := (visit sep RegExp test gitignorePatterns).
Local Abbreviation allKept := (allKept sep RegExp test gitignorePatterns).

(** An induction principle that reaches the entries of a directory. *)
Lemma Dirent_nested_ind (P : Dirent -> Prop) :
  (forall name, P (File name)) ->
  (forall name, P (Other name)) ->
  (forall name, P (Directory name None)) ->
  (forall name entries, Forall P entries -> P (Directory name (Some entries))) ->
  forall item, P item.
Proof.
  intros HF HO HN HD. fix IH 1.
  intros [name | name [entries|] | name];
    [apply HF | | apply HN | apply HO].
  apply HD. induction entries as [|e es IHes]; constructor; [apply IH | exact IHes].
Qed.


Lemma fold_visit_kept dir rel entries :
  Forall (fun item => forall dir rel files,
            allKept files -> allKept (walk dir rel files item)) entries ->
  forall files, allKept files -> allKept (fold_left (walk dir rel) entries files).
Proof.
  induction 1 as [|item entries Hitem _ IH]; intros files Hfiles; cbn [fold_left].
  - exact Hfiles.
  - apply IH, Hitem, Hfiles.
Qed.

(** The walk only ever adds a file whose relative path passed
    [shouldIgnorePath]. *)
Lemma visit_kept item : forall dir rel files,
  allKept files -> allKept (walk dir rel files item).
Proof.
  induction item as [name | name | name | name entries IH] using Dirent_nested_ind;
    intros dir rel files Hfiles; cbn [visit direntName].
  - destruct (shouldIgnorePath _ _ _ _ _) eqn:Hi; [exact Hfiles|].
    destruct (isTsName name); [|exact Hfiles].
    apply Forall_app. split; [exact Hfiles|].
    constructor; [exact Hi | constructor].
  - now destruct (shouldIgnorePath _ _ _ _ _).
  - now destruct (shouldIgnorePath _ _ _ _ _).
  - destruct (shouldIgnorePath _ _ _ _ _); [exact Hfiles|].
    now apply fold_visit_kept.
Qed.

Lemma findTsFiles_kept fs root :
  allKept (findTsFiles sep RegExp test gitignorePatterns fs root).
Proof.
  unfold findTsFiles. destruct root as [entries|]; [|constructor].
  apply fold_visit_kept; [|constructor].
  apply Forall_forall. intros item _. apply visit_kept.
Qed.

Lemma shouldIgnorePath_spec relativePath :
  ignored relativePath = true <->
  (exists part, In part (split [sep] relativePath) /\ part ∈ ignoredDirs)
  \/ (exists regex, In regex gitignorePatterns /\ test regex relativePath = true).
Proof.
  unfold shouldIgnorePath.
  destruct (existsb _ (split [sep] relativePath)) eqn:E.
  - split; [intros _|reflexivity]. left.
    apply existsb_exists in E. destruct E as [part [Hin Hd]].
    exists part. split; [exact Hin|]. now apply bool_decide_eq_true in Hd.
  - rewrite existsb_exists. split; [intros H; right; exact H|].
    intros [[part [Hin Hd]] | H]; [|exact H].
    exfalso. apply Bool.not_true_iff_false in E. apply E.
    apply existsb_exists. exists part. split; [exact Hin|].
    now apply bool_decide_eq_true.
Qed.

End WalkFacts.

(** C5: [shouldIgnorePath] answers true exactly when a segment of the
    relative path is one of the fixed names or the path matches one of
    the compiled patterns; the fixed names are the eleven of the
    constructor; whatever the patterns are, and so whatever the
    ignore-file holds, no file that [findTsFiles] returns has a segment
    among the fixed names. *)
Theorem fixed_names_always_ignored
    (sep : N) (RegExp : Type) (test : RegExp -> jsstring -> bool)
    (gitignorePatterns : list RegExp) :
  (forall relativePath,
     shouldIgnorePath sep RegExp test gitignorePatterns relativePath = true <->
     (exists part, In part (split [sep] relativePath) /\ part ∈ ignoredDirs)
     \/ (exists regex, In regex gitignorePatterns /\ test regex relativePath = true))
  /\ (forall part, part ∈ ignoredDirs <-> In part ignoredNames)
  /\ (forall fs root file part,
        In file (findTsFiles sep RegExp test gitignorePatterns fs root) ->
        In part (split [sep] (relativePath file)) ->
        part ∉ ignoredDirs)
  /\ (forall newRegExp fs root file part,
        In file (findTsFiles sep RegExp test
                   (loadGitignore sep RegExp newRegExp fs) fs root) ->
        In part (split [sep] (relativePath file)) ->
        part ∉ ignoredDirs).
Proof.
  assert (Hfiles : forall patterns fs root file part,
            In file (findTsFiles sep RegExp test patterns fs root) ->
            In part (split [sep] (relativePath file)) ->
            part ∉ ignoredDirs).
  { intros patterns fs root file part Hfile Hpart Hign.
    pose proof (findTsFiles_kept sep RegExp test patterns fs root) as Hk.
    unfold allKept in Hk. rewrite List.Forall_forall in Hk.
    specialize (Hk file Hfile).
    apply Bool.not_true_iff_false in Hk. apply Hk.
    apply shouldIgnorePath_spec. left. exists part. split; assumption. }
  split; [|split; [|split]].
  - apply shouldIgnorePath_spec.
  - intros part. unfold ignoredDirs. rewrite elem_of_list_to_set.
    apply list_elem_of_In.
  - apply Hfiles.
  - intros newRegExp fs. apply Hfiles.
Qed.

(** C7: the double-star stage of [convertGitignoreToRegex] never finds
    a match, so the function passes to [new RegExp] the string that the
    pipeline without that stage passes, and builds the same regular
    expression, whatever the engine: the string the single-star stage
    leaves holds no two adjacent stars. *)
Theorem double_star_stage_dead (pattern : jsstring) :
  regexPattern pattern = regexPattern_singleStar pattern
  /\ includes (lit "**")
       (replaceChar 42 (lit "[^/]*") (replaceChar 46 (lit "\.") pattern)) = false
  /\ forall (RegExp : Type) (newRegExp : jsstring -> option RegExp),
       convertGitignoreToRegex RegExp newRegExp pattern
       = convertGitignoreToRegex_singleStar RegExp newRegExp pattern.
Proof.
  assert (H : regexPattern pattern = regexPattern_singleStar pattern).
  { unfold regexPattern, regexPattern_singleStar.
    rewrite replaceLit_absent; [reflexivity|].
    apply replaceChar_star_apart. }
  split; [exact H|]. split; [apply replaceChar_star_apart|].
  intros RegExp newRegExp.
  unfold convertGitignoreToRegex, convertGitignoreToRegex_singleStar.
  now rewrite H.
Qed.

(** ** The report arithmetic *)

Lemma Qabs_nonneg (q : Q) : (0 <= q)%Q -> Qabs q = q.
Proof.
  destruct q as [a b]. unfold Qle. cbn. intros H. f_equal. apply Z.abs_eq. lia.
Qed.

Lemma Qdiv_1024_nonneg (q : Q) : (0 <= q)%Q -> (0 <= q / 1024)%Q.
Proof.
  intros H. apply Qle_shift_div_l; [reflexivity|]. now rewrite Qmult_0_l.
Qed.

Lemma decimal_digit d : 0 <= d < 10 -> List.length (decimal d) = 1%nat.
Proof.
  intros H.
  assert (E : d = 0 \/ d = 1 \/ d = 2 \/ d = 3 \/ d = 4 \/ d = 5 \/ d = 6 \/ d = 7 \/ d = 8 \/ d = 9) by lia.
  repeat (destruct E as [-> | E]; [reflexivity|]). now subst.
Qed.


Lemma keepsScaling_finite q k :
  keepsScaling (Finite q) k = Qle_bool 1024 q && (k <? 3)%nat.
Proof. reflexivity. Qed.

Lemma Qle_bool_false a b : Qle_bool a b = false -> (b < a)%Q.
Proof.
  intros H. apply Qnot_le_lt. intros Hle.
  apply Qle_bool_iff in Hle. congruence.
Qed.

Lemma toFixed1_nonneg (size : Q) :
  (0 <= size)%Q -> (size < inject_Z (10 ^ 21))%Q ->
  let n := nearestTenth size in
  toFixed1 (Finite size) = Some (decimal (n / 10) ++ lit "." ++ decimal (n mod 10))
  /\ List.length (decimal (n mod 10)) = 1%nat.
Proof.
  intros H0 H1 n. split.
  - unfold toFixed1.
    assert (E0 : Qle_bool 0 size = true) by now apply Qle_bool_iff.
    rewrite E0, (Qabs_nonneg size H0).
    destruct (Qle_bool (inject_Z (10 ^ 21)) size) eqn:E1.
    + apply Qle_bool_iff in E1. exfalso. apply (Qlt_not_le _ _ H1 E1).
    + reflexivity.
  - apply decimal_digit. apply Z.mod_pos_bound. lia.
Qed.

Lemma Qdiv_one (q : Q) : (q / 1 == q)%Q.
Proof. field. Qed.

Lemma Qdiv_twice (q : Q) : (q / (1024 * 1024) == q / 1024 / 1024)%Q.
Proof. field. Qed.

Lemma pow1024_0 : (1024 ^ Z.of_nat 0 == 1)%Q.
Proof. reflexivity. Qed.

Lemma pow1024_1 : (1024 ^ Z.of_nat 1 == 1024)%Q.
Proof. reflexivity. Qed.

Lemma pow1024_2 : (1024 ^ Z.of_nat 2 == 1024 * 1024)%Q.
Proof. reflexivity. Qed.

Lemma pow1024_3 : (1024 ^ Z.of_nat 3 == 1024 * 1024 * 1024)%Q.
Proof. reflexivity. Qed.


Lemma nearestTenth_nearest (x : Q) :
  let n := nearestTenth x in
  (inject_Z n <= x * 10 + (1 # 2))%Q /\ (x * 10 + (1 # 2) < inject_Z (n + 1))%Q.
Proof. split; [apply Qfloor_le | apply Qlt_floor]. Qed.

(** The [while] loop of [formatFileSize] on a byte count that is not
    negative: the unit index, the scaled value and the exit condition. *)
Lemma scale_spec (bytes : Q) :
  (0 <= bytes)%Q ->
  exists (size : Q) (k : nat),
    scale (Finite bytes) = (Finite size, k)
    /\ (k <= 3)%nat
    /\ (size == bytes / 1024 ^ Z.of_nat k)%Q
    /\ (forall j, (j < k)%nat -> (1024 <= bytes / 1024 ^ Z.of_nat j)%Q)
    /\ ((k < 3)%nat -> (size < 1024)%Q)
    /\ (0 <= size)%Q
    /\ formatFileSize (Finite bytes)
       = option_map (fun digits => digits ++ lit " " ++ nth k units [])
                    (toFixed1 (Finite size)).
Proof.
  intros H0.
  assert (Hfmt : forall size k, scale (Finite bytes) = (Finite size, k) ->
            formatFileSize (Finite bytes)
            = option_map (fun digits => digits ++ lit " " ++ nth k units [])
                         (toFixed1 (Finite size))).
  { intros size k E. unfold formatFileSize. rewrite E.
    now destruct (toFixed1 (Finite size)). }
  pose proof (Qdiv_1024_nonneg _ H0) as H1.
  pose proof (Qdiv_1024_nonneg _ H1) as H2.
  pose proof (Qdiv_1024_nonneg _ H2) as H3.
  assert (Hscale : scale (Finite bytes) = 
    if Qle_bool 1024 bytes then
      if Qle_bool 1024 (bytes / 1024) then
        if Qle_bool 1024 (bytes / 1024 / 1024) then (Finite (bytes / 1024 / 1024 / 1024), 3%nat)
        else (Finite (bytes / 1024 / 1024), 2%nat)
      else (Finite (bytes / 1024), 1%nat)
    else (Finite bytes, 0%nat)).
  { unfold scale. cbn [scaleLoop units List.length Nat.pred divBy].
    rewrite !keepsScaling_finite. cbn [Nat.ltb Nat.leb]. rewrite !andb_true_r. reflexivity. }
  destruct (Qle_bool 1024 bytes) eqn:E0;
    [destruct (Qle_bool 1024 (bytes / 1024)) eqn:E1;
      [destruct (Qle_bool 1024 (bytes / 1024 / 1024)) eqn:E2|]|].
  all: try apply Qle_bool_iff in E0; try apply Qle_bool_iff in E1; try apply Qle_bool_iff in E2.
  all: try apply Qle_bool_false in E0; try apply Qle_bool_false in E1; try apply Qle_bool_false in E2.
  all: eexists; eexists; split; [exact Hscale|].
  all: split; [lia|]. 
  all: split; [first [rewrite pow1024_0 | rewrite pow1024_1 | rewrite pow1024_2 | rewrite pow1024_3]; field|].
  all: split; [intros [|[|[|j]]] Hj; try lia;
               first [rewrite pow1024_0 | rewrite pow1024_1 | rewrite pow1024_2];
               rewrite ?Qdiv_one, ?Qdiv_twice; assumption |].
  all: split; [intros Hk; first [assumption | lia] |].
  all: split; [assumption | now apply Hfmt].
Qed.

(** The loop has left when it returns: its condition is false on the
    state it returns, so the fuel given by [scale] is enough. *)
Lemma scale_exits (bytes : number) :
  let '(size, unitIndex) := scale bytes in
  keepsScaling size unitIndex = false.
Proof.
  unfold scale. cbn [units List.length Nat.pred scaleLoop].
  destruct (keepsScaling bytes 0) eqn:E0; [|exact E0].
  destruct (keepsScaling (divBy bytes 1024) 1) eqn:E1; [|exact E1].
  destruct (keepsScaling (divBy (divBy bytes 1024) 1024) 2) eqn:E2; [|exact E2].
  unfold keepsScaling. apply andb_false_r.
Qed.

(** C8: on a byte count that is not negative [formatFileSize] divides
    by 1024 as long as the value is at least 1024 and the unit is not
    yet GB: the unit index [k] is at most 3, the scaled value is
    [bytes / 1024^k], every earlier unit had a value of at least 1024,
    and below GB the scaled value is below 1024.  The result is the
    scaled value rounded to the nearest tenth, written with one digit
    behind the point, a space and the unit (below 10^21, where [toFixed]
    keeps the fixed notation).  A GB value can reach 1024. *)
Theorem formatFileSize_unit_and_digits (bytes : Q) :
  (0 <= bytes)%Q ->
  exists (size : Q) (k : nat),
    scale (Finite bytes) = (Finite size, k)
    /\ (k <= 3)%nat
    /\ (size == bytes / 1024 ^ Z.of_nat k)%Q
    /\ (forall j, (j < k)%nat -> (1024 <= bytes / 1024 ^ Z.of_nat j)%Q)
    /\ ((k < 3)%nat -> (size < 1024)%Q)
    /\ keepsScaling (Finite size) k = false
    /\ ((size < inject_Z (10 ^ 21))%Q ->
        let n := nearestTenth size in
        formatFileSize (Finite bytes)
        = Some ((decimal (n / 10) ++ lit "." ++ decimal (n mod 10))
                ++ lit " " ++ nth k units [])
        /\ List.length (decimal (n mod 10)) = 1%nat
        /\ (inject_Z n <= size * 10 + (1 # 2))%Q
        /\ (size * 10 + (1 # 2) < inject_Z (n + 1))%Q)
    /\ units = [lit "B"; lit "KB"; lit "MB"; lit "GB"]
    /\ formatFileSize (ofZ (1024 ^ 4)) = Some (lit "1024.0 GB").
Proof.
  intros H0.
  destruct (scale_spec bytes H0) as (size & k & Hs & Hk & Hv & Hge & Hlt & Hpos & Hf).
  exists size, k.
  repeat (split; [assumption|]).
  split.
  { pose proof (scale_exits (Finite bytes)) as Hx. now rewrite Hs in Hx. }
  split; [|split; [reflexivity | vm_compute; reflexivity]].
  intros Hbig n.
  destruct (toFixed1_nonneg size Hpos Hbig) as [Ht Hd].
  split; [|split; [exact Hd | apply nearestTenth_nearest]].
  rewrite Hf. fold n in Ht. rewrite Ht. reflexivity.
Qed.

Lemma formatFileSize_unit_and_digits_witness :
  exists (size : Q) (k : nat),
    scale (Finite (inject_Z 1536)) = (Finite size, k) /\ (k <= 3)%nat.
Proof.
  destruct (formatFileSize_unit_and_digits (inject_Z 1536)) as (size & k & Hs & Hk & _).
  - unfold Qle. cbn. lia.
  - exists size, k. split; assumption.
Defined.


Lemma percentage_zero_total (count : Z) :
  percentage count 0 = Some (percentOfZero count).
Proof.
  unfold percentage, percentOfZero, divZ. cbn [Z.eqb].
  destruct (count =? 0); [reflexivity|].
  destruct (0 <? count); reflexivity.
Qed.


(** C4, as stated, fails: on the empty list the aggregate [totalLines]
    is 0 and the percentage of the code lines is printed as [NaN%]. *)
Lemma empty_report_prints_NaN :
  totalLines (totals (generateReport [])) = 0
  /\ codePercent (generateReport []) = Some (lit "NaN%")
  /\ ~ guardedPercent (codePercent (generateReport [])).
Proof.
  split; [reflexivity|]. split; [reflexivity|].
  unfold guardedPercent. vm_compute. intros [H | [H | H]]; discriminate H.
Qed.

(** C4, amended: [generateReport] has no guard.  When the aggregate
    [totalLines] is 0 every percentage is the quotient of a count by
    zero, which is not finite, and is printed as such: [NaN%] for a
    count of 0, and the four percentages of the empty list are [NaN%]. *)
Theorem zero_total_percentages_unguarded (fileStats : list FileStat) :
  totalLines (totalsOf fileStats) = 0 ->
  let report := generateReport fileStats in
  let sums := counts (totalsOf fileStats) in
  (codePercent report = Some (percentOfZero (codeLines sums))
   /\ commentPercent report = Some (percentOfZero (commentLines sums))
   /\ importPercent report = Some (percentOfZero (importLines sums))
   /\ emptyPercent report = Some (percentOfZero (emptyLines sums)))
  /\ percentOfZero 0 = lit "NaN%"
  /\ (fileStats = [] ->
      codePercent report = Some (lit "NaN%")
      /\ commentPercent report = Some (lit "NaN%")
      /\ importPercent report = Some (lit "NaN%")
      /\ emptyPercent report = Some (lit "NaN%")).
Proof.
  intros Hz report sums.
  split; [|split; [reflexivity|]].
  - subst report sums. unfold generateReport.
    cbn [codePercent commentPercent importPercent emptyPercent].
    rewrite Hz. repeat split; apply percentage_zero_total.
  - intros ->. repeat split; reflexivity.
Qed.

Lemma zero_total_percentages_unguarded_witness :
  codePercent (generateReport []) = Some (percentOfZero 0).
Proof.
  exact (proj1 (proj1 (zero_total_percentages_unguarded [] eq_refl))).
Defined.

(** ** Files that cannot be read, and files that can *)

Lemma fileStatsOf_app fs l1 l2 :
  fileStatsOf fs (l1 ++ l2) = fileStatsOf fs l1 ++ fileStatsOf fs l2.
Proof. unfold fileStatsOf. now rewrite List.map_app, List.filter_app. Qed.

Lemma fileStatsOf_cons fs file files :
  fileStatsOf fs (file :: files)
  = if 0 <? totalLines (analyzeFile fs (fullPath file))
    then mkFileStat file (analyzeFile fs (fullPath file)) :: fileStatsOf fs files
    else fileStatsOf fs files.
Proof. reflexivity. Qed.

Lemma fileStatsOf_positive fs tsFiles x :
  In x (fileStatsOf fs tsFiles) -> 0 < totalLines (stats x).
Proof.
  unfold fileStatsOf. intros H. apply List.filter_In in H. destruct H as [_ H].
  now apply Z.ltb_lt.
Qed.

(** C6: when the read or the stat of a file fails, [analyzeFile]
    returns the record whose six fields are 0; [analyze] keeps only the
    records with [totalLines > 0]; so the statistics handed to the
    report and to the ranking are those of the file list without the
    failed file, and so is the whole output as long as another file was
    found. *)
Theorem failed_file_excluded (fs : FileSystem) (filePath : jsstring) :
  readFileSync fs filePath = None \/ statSize fs filePath = None ->
  analyzeFile fs filePath = mkStats 0 (mkCounts 0 0 0 0) 0
  /\ (forall tsFiles x, In x (fileStatsOf fs tsFiles) -> 0 < totalLines (stats x))
  /\ (forall before file after,
        fullPath file = filePath ->
        fileStatsOf fs (before ++ file :: after) = fileStatsOf fs (before ++ after)
        /\ (before ++ after <> [] ->
            analyzeFiles fs (before ++ file :: after) = analyzeFiles fs (before ++ after))).
Proof.
  intros Hfail.
  assert (Hzero : analyzeFile fs filePath = zeroStatistics).
  { unfold analyzeFile. destruct Hfail as [-> | Hs]; [reflexivity|].
    destruct (readFileSync fs filePath); [now rewrite Hs | reflexivity]. }
  split; [exact Hzero|]. split; [apply fileStatsOf_positive|].
  intros before file after Hpath.
  assert (Hdrop : fileStatsOf fs (before ++ file :: after) = fileStatsOf fs (before ++ after)).
  { rewrite !fileStatsOf_app, fileStatsOf_cons, Hpath, Hzero. reflexivity. }
  split; [exact Hdrop|].
  intros Hne. unfold analyzeFiles. rewrite Hdrop.
  destruct (before ++ after) eqn:E; [congruence|].
  rewrite List.length_app, List.length_cons.
  replace (List.length before + S (List.length after) =? 0)%nat with false
    by (symmetry; apply Nat.eqb_neq; lia).
  reflexivity.
Qed.


Lemma failed_file_excluded_witness :
  analyzeFile unreadableFS (lit "/w/a.ts") = mkStats 0 (mkCounts 0 0 0 0) 0.
Proof.
  apply (failed_file_excluded unreadableFS (lit "/w/a.ts")).
  left. reflexivity.
Defined.


(** C9, as stated, fails: a file whose content is read, but whose stat
    throws, gets [totalLines = 0]. *)
Lemma read_without_stat_has_no_line :
  readFileSync statlessFS (lit "/w/a.ts") = Some []
  /\ ~ (1 <= totalLines (analyzeFile statlessFS (lit "/w/a.ts"))).
Proof. split; [reflexivity|]. vm_compute. intros H. now apply H. Qed.

(** C9, amended: for a file whose content is read and whose stat
    succeeds, [analyzeFile] returns [totalLines >= 1], the number of
    pieces of the split; an empty file has [totalLines = 1] and
    [emptyLines = 1] and no other count; and the file is among the
    statistics that [analyze] reports on. *)
Theorem read_file_has_a_line
    (fs : FileSystem) (filePath content : jsstring) (size : Z) :
  readFileSync fs filePath = Some content ->
  statSize fs filePath = Some size ->
  1 <= totalLines (analyzeFile fs filePath)
  /\ totalLines (analyzeFile fs filePath)
     = Z.of_nat (List.length (split [10%N] content))
  /\ (content = [] ->
      totalLines (analyzeFile fs filePath) = 1
      /\ counts (analyzeFile fs filePath) = mkCounts 0 0 1 0)
  /\ (forall tsFiles file,
        In file tsFiles ->
        fullPath file = filePath ->
        In (mkFileStat file (analyzeFile fs filePath)) (fileStatsOf fs tsFiles)
        /\ analyzeFiles fs tsFiles
           = Reported (generateReport (fileStatsOf fs tsFiles))
               (showRankings (fileStatsOf fs tsFiles)
                  (fun file => codeLines (counts (stats file))) 5)).
Proof.
  intros Hr Hs.
  assert (Ht : totalLines (analyzeFile fs filePath)
               = Z.of_nat (List.length (split [10%N] content))).
  { unfold analyzeFile. now rewrite Hr, Hs. }
  assert (H1 : 1 <= totalLines (analyzeFile fs filePath)).
  { rewrite Ht. pose proof (split_length [10%N] content). lia. }
  split; [exact H1|]. split; [exact Ht|]. split.
  - intros ->. unfold analyzeFile. rewrite Hr, Hs. split; reflexivity.
  - intros tsFiles file Hin Hpath. split.
    + unfold fileStatsOf. apply List.filter_In. split.
      * apply List.in_map_iff. exists file. split; [now rewrite Hpath | exact Hin].
      * cbn [stats]. apply Z.ltb_lt. lia.
    + unfold analyzeFiles. destruct tsFiles; [destruct Hin | reflexivity].
Qed.


Lemma read_file_has_a_line_witness :
  1 <= totalLines (analyzeFile emptyFilesFS (lit "/w/a.ts")).
Proof.
  apply (read_file_has_a_line emptyFilesFS (lit "/w/a.ts") [] 0); reflexivity.
Defined.

(** * Further properties of the code *)

(** ** The string primitives, continued *)

Lemma startsWith_app_l p a b : startsWith p a = true -> startsWith p (a ++ b) = true.
Proof.
  revert a. induction p as [|x p IH]; intros a H; [reflexivity|].
  destruct a as [|y a]; [discriminate|]. cbn [startsWith app] in *.
  apply andb_true_iff in H. destruct H as [-> H]. now rewrite IH.
Qed.

Lemma includes_app_l sub a b : includes sub a = true -> includes sub (a ++ b) = true.
Proof.
  induction a as [|c a IH]; cbn [includes app]; intros H.
  - rewrite orb_false_r in H. destruct sub; [|discriminate].
    destruct b; reflexivity.
  - apply orb_true_iff in H. destruct H as [H | H].
    + change (c :: a ++ b) with ((c :: a) ++ b).
      now rewrite (startsWith_app_l _ _ b H).
    + rewrite (IH H). apply orb_true_r.
Qed.

Lemma includes_app_r sub a b : includes sub b = true -> includes sub (a ++ b) = true.
Proof.
  intros H. induction a as [|c a IH]; [exact H|].
  cbn [includes app]. rewrite IH. apply orb_true_r.
Qed.

Lemma includes_trim sub s : includes sub (trim s) = true -> includes sub s = true.
Proof.
  intros H. unfold trim in H.
  destruct (trimEnd_prefix (trimStart s)) as [post E].
  destruct (trimStart_suffix s) as [pre E'].
  rewrite E'. apply includes_app_r. rewrite E. now apply includes_app_l.
Qed.

Lemma trimStart_idem s : trimStart (trimStart s) = trimStart s.
Proof.
  induction s as [|c s IH]; [reflexivity|]. cbn [trimStart].
  destruct (isSpace c) eqn:E; [exact IH|]. cbn [trimStart]. now rewrite E.
Qed.

Lemma trimEnd_idem s : trimEnd (trimEnd s) = trimEnd s.
Proof. unfold trimEnd. now rewrite rev_involutive, trimStart_idem. Qed.

Lemma trimStart_fixed c s : isSpace c = false -> trimStart (c :: s) = c :: s.
Proof. intros H. cbn [trimStart]. now rewrite H. Qed.

Lemma trim_idem s : trim (trim s) = trim s.
Proof.
  unfold trim at 1.
  destruct (trim s) as [|c r] eqn:E; [reflexivity|].
  rewrite (trimStart_fixed c r (trim_head s c r E)).
  rewrite <- E. unfold trim. apply trimEnd_idem.
Qed.

Lemma trimStart_snoc s c :
  isSpace c = true -> trimStart s <> [] -> trimStart (s ++ [c]) = trimStart s ++ [c].
Proof.
  intros Hc. induction s as [|d s IH]; cbn [trimStart app]; [congruence|].
  destruct (isSpace d); [exact IH | reflexivity].
Qed.

Lemma trimStart_all_space s c :
  isSpace c = true -> trimStart s = [] -> trimStart (s ++ [c]) = [].
Proof.
  intros Hc. induction s as [|d s IH]; cbn [trimStart app].
  - now rewrite Hc.
  - destruct (isSpace d); [exact IH | discriminate].
Qed.

Lemma trim_snoc_space s c : isSpace c = true -> trim (s ++ [c]) = trim s.
Proof.
  intros Hc. unfold trim.
  destruct (trimStart s) as [|d t] eqn:E.
  - now rewrite (trimStart_all_space s c Hc E).
  - rewrite trimStart_snoc by (assumption || congruence). rewrite E.
    unfold trimEnd. rewrite rev_app_distr. cbn [rev app trimStart].
    now rewrite Hc.
Qed.

Lemma trim_cons_space s c : isSpace c = true -> trim (c :: s) = trim s.
Proof. intros Hc. unfold trim. cbn [trimStart]. now rewrite Hc. Qed.

Lemma step_trim st line : step st (trim line) = step st line.
Proof. unfold step. now rewrite trim_idem. Qed.

(** ** The classifier, line by line *)

Lemma step_empty_count st line :
  emptyLines (tally (step st line))
  = emptyLines (tally st) + (if isBlank line then 1 else 0).
Proof.
  unfold isBlank. destruct st as [[a b c d] f]. unfold_classifier. proj.
  repeat break_if; proj; lia.
Qed.

Lemma scanLines_empty lines : forall st,
  emptyLines (tally (scanLines st lines)) = emptyLines (tally st) + countBlank lines.
Proof.
  unfold countBlank.
  induction lines as [|line lines IH]; intros st.
  - cbn. lia.
  - rewrite scanLines_cons, IH, step_empty_count. cbn [List.filter].
    destruct (isBlank line); cbn [List.length]; lia.
Qed.

(** X1: [emptyLines] is exactly the number of blank lines, wherever they
    stand: a blank line adds to no other counter and leaves the
    block-comment mode as it is, so a blank line inside a block comment
    is counted as empty and not as comment. *)
Theorem emptyLines_counts_blank_lines (lines : list jsstring) :
  emptyLines (countCodeLines lines) = countBlank lines
  /\ forall st line, isBlank line = true ->
       inMultiLineComment (step st line) = inMultiLineComment st
       /\ codeLines (tally (step st line)) = codeLines (tally st)
       /\ commentLines (tally (step st line)) = commentLines (tally st)
       /\ importLines (tally (step st line)) = importLines (tally st).
Proof.
  split.
  - unfold countCodeLines. rewrite scanLines_empty. reflexivity.
  - intros st line H. unfold isBlank in H. rewrite (step_blank st line H).
    destruct st as [[a b c d] f]. repeat split; reflexivity.
Qed.

Lemma step_import_code st line :
  let st' := step st line in
  importLines (tally st) <= importLines (tally st')
  /\ importLines (tally st') - importLines (tally st)
     <= codeLines (tally st') - codeLines (tally st)
  /\ commentLines (tally st) <= commentLines (tally st')
  /\ emptyLines (tally st) <= emptyLines (tally st').
Proof.
  destruct st as [[a b c d] f]. unfold_classifier. proj.
  repeat break_if; proj; lia.
Qed.

Lemma scanLines_import_code lines : forall st,
  let st' := scanLines st lines in
  importLines (tally st) <= importLines (tally st')
  /\ importLines (tally st') - importLines (tally st)
     <= codeLines (tally st') - codeLines (tally st)
  /\ commentLines (tally st) <= commentLines (tally st')
  /\ emptyLines (tally st) <= emptyLines (tally st').
Proof.
  induction lines as [|line lines IH]; intros st.
  - cbn. lia.
  - rewrite scanLines_cons. specialize (IH (step st line)).
    pose proof (step_import_code st line) as H. cbv zeta in *. lia.
Qed.

(** X2: every line counted in [importLines] is also counted in
    [codeLines], and no counter is negative. *)
Theorem import_lines_are_code_lines (lines : list jsstring) :
  let r := countCodeLines lines in
  0 <= importLines r <= codeLines r
  /\ 0 <= commentLines r
  /\ 0 <= emptyLines r.
Proof.
  pose proof (scanLines_import_code lines initialScan) as H.
  unfold countCodeLines. cbv zeta in *. cbn in H. lia.
Qed.

Lemma step_inside_block st line :
  inMultiLineComment st = true ->
  includes blockClose line = false ->
  step st line = if isBlank line then incEmpty st else incComment st.
Proof.
  intros Hin Hc. unfold step, isBlank.
  destruct (isEmpty (trim line)); [reflexivity|]. rewrite Hin.
  destruct (includes blockClose (trim line)) eqn:E; [|reflexivity].
  apply includes_trim in E. congruence.
Qed.

(** X3: inside a block comment, as long as no line holds the terminator,
    the classifier stays inside: every line that is not blank adds one
    to [commentLines], [codeLines] and [importLines] do not move. *)
Theorem unterminated_block_swallows (st : Scan) (lines : list jsstring) :
  inMultiLineComment st = true ->
  Forall (fun line => includes blockClose line = false) lines ->
  let st' := scanLines st lines in
  inMultiLineComment st' = true
  /\ codeLines (tally st') = codeLines (tally st)
  /\ importLines (tally st') = importLines (tally st)
  /\ commentLines (tally st')
     = commentLines (tally st) + (Z.of_nat (List.length lines) - countBlank lines)
  /\ emptyLines (tally st') = emptyLines (tally st) + countBlank lines.
Proof.
  intros Hin Hall. revert st Hin.
  induction Hall as [|line lines Hline _ IH]; intros st Hin.
  - unfold countBlank. cbn [scanLines fold_left List.filter List.length]. repeat split; try assumption; lia.
  - cbv zeta. rewrite scanLines_cons.
    rewrite (step_inside_block st line Hin Hline).
    unfold countBlank. cbn [List.filter List.length].
    destruct (isBlank line).
    + specialize (IH (incEmpty st)). cbv zeta in IH.
      destruct IH as (H1 & H2 & H3 & H4 & H5); [destruct st as [[a b c d] f]; exact Hin|].
      unfold countBlank in *. rewrite H1, H2, H3, H4, H5.
      destruct st as [[a b c d] f]. cbn [List.length]. proj. cbn. repeat split; lia.
    + specialize (IH (incComment st)). cbv zeta in IH.
      destruct IH as (H1 & H2 & H3 & H4 & H5); [destruct st as [[a b c d] f]; exact Hin|].
      unfold countBlank in *. rewrite H1, H2, H3, H4, H5.
      destruct st as [[a b c d] f]. cbn [List.length]. proj. cbn. repeat split; lia.
Qed.

Lemma unterminated_block_swallows_witness :
  commentLines (tally (scanLines (mkScan (mkCounts 0 1 0 0) true)
                                 [lit "const x = 1;"; lit ""]))
  = 1 + (2 - countBlank [lit "const x = 1;"; lit ""]).
Proof.
  apply (unterminated_block_swallows (mkScan (mkCounts 0 1 0 0) true)
           [lit "const x = 1;"; lit ""] eq_refl).
  repeat constructor.
Defined.

Lemma classify_no_marker st p :
  isEmpty p = false ->
  includes blockOpen p = false ->
  includes lineComment p = false ->
  classify st p = incCode (if isImportExport p then incImport st else st).
Proof.
  intros Hp Ho Hl. unfold classify. rewrite Ho. cbn [andb].
  destruct (matchBlock p) eqn:Hm.
  - apply matchBlock_includes in Hm. congruence.
  - unfold classifyLineComment. rewrite (includes_head _ _ Hl), Hl.
    unfold countRest. now rewrite Hp.
Qed.

Lemma includes_trim_false sub s : includes sub s = false -> includes sub (trim s) = false.
Proof.
  intros H. destruct (includes sub (trim s)) eqn:E; [|reflexivity].
  apply includes_trim in E. congruence.
Qed.

Lemma step_no_marker st line :
  inMultiLineComment st = false ->
  includes blockOpen line = false ->
  includes lineComment line = false ->
  inMultiLineComment (step st line) = false
  /\ commentLines (tally (step st line)) = commentLines (tally st)
  /\ codeLines (tally (step st line))
     = codeLines (tally st) + (if isBlank line then 0 else 1).
Proof.
  intros Hin Ho Hl. unfold step, isBlank.
  destruct (isEmpty (trim line)) eqn:Hb.
  - destruct st as [[a b c d] f]. cbn in *. repeat split; [assumption | lia].
  - rewrite Hin.
    rewrite (classify_no_marker st _ Hb (includes_trim_false _ _ Ho)
               (includes_trim_false _ _ Hl)).
    destruct st as [[a b c d] f]. unfold incCode, incImport.
    destruct (isImportExport (trim line)); proj; repeat split; assumption || lia.
Qed.

(** X4: on lines that hold neither an opener nor a line-comment marker
    nothing is counted as comment, every line that is not blank is one
    line of code, and [codeLines + emptyLines] is the number of lines. *)
Theorem text_without_comment_markers (lines : list jsstring) :
  Forall (fun line => includes blockOpen line = false
                      /\ includes lineComment line = false) lines ->
  let r := countCodeLines lines in
  commentLines r = 0
  /\ codeLines r = Z.of_nat (List.length lines) - countBlank lines
  /\ codeLines r + emptyLines r = Z.of_nat (List.length lines).
Proof.
  intros Hall.
  assert (H : forall st, inMultiLineComment st = false ->
            let st' := scanLines st lines in
            inMultiLineComment st' = false
            /\ commentLines (tally st') = commentLines (tally st)
            /\ codeLines (tally st')
               = codeLines (tally st) + (Z.of_nat (List.length lines) - countBlank lines)).
  { induction Hall as [|line lines [Ho Hl] _ IH]; intros st Hin.
    - unfold countBlank. cbn [scanLines fold_left List.filter List.length].
      repeat split; try assumption; lia.
    - cbv zeta. rewrite scanLines_cons.
      destruct (step_no_marker st line Hin Ho Hl) as (H1 & H2 & H3).
      destruct (IH (step st line) H1) as (K1 & K2 & K3).
      rewrite K1, K2, K3, H2, H3. unfold countBlank.
      cbn [List.filter List.length].
      destruct (isBlank line); cbn [List.length]; repeat split; lia. }
  destruct (H initialScan eq_refl) as (_ & H2 & H3).
  cbv zeta. unfold countCodeLines.
  pose proof (scanLines_empty lines initialScan) as He.
  rewrite H2, H3, He. cbn. repeat split; lia.
Qed.

Lemma step_shift d st line : step (shift d st) line = shift d (step st line).
Proof.
  destruct st as [[a b c e] f], d as [da db dc de].
  unfold shift, addCounts. unfold_classifier. proj.
  repeat break_if; proj; f_equal; f_equal; lia.
Qed.

Lemma scanLines_shift d lines : forall st,
  scanLines (shift d st) lines = shift d (scanLines st lines).
Proof.
  induction lines as [|line lines IH]; intros st; [reflexivity|].
  now rewrite !scanLines_cons, step_shift, IH.
Qed.

(** X5: when the scan of a first group of lines ends outside a block
    comment, the counts of the two groups together are the field-wise
    sums of the counts of each group. *)
Theorem counts_add_up_outside_block (l1 l2 : list jsstring) :
  inMultiLineComment (scanLines initialScan l1) = false ->
  countCodeLines (l1 ++ l2) = addCounts (countCodeLines l1) (countCodeLines l2).
Proof.
  intros Hout. unfold countCodeLines. rewrite scanLines_app.
  assert (E : scanLines initialScan l1 = shift (tally (scanLines initialScan l1)) initialScan).
  { destruct (scanLines initialScan l1) as [[a b c d] f]. cbn in Hout. subst f.
    unfold shift, addCounts. cbn. f_equal. f_equal; lia. }
  rewrite E at 1. rewrite scanLines_shift. reflexivity.
Qed.

Lemma scanLines_trim lines : forall st,
  scanLines st (map trim lines) = scanLines st lines.
Proof.
  induction lines as [|line lines IH]; intros st; [reflexivity|].
  cbn [map]. now rewrite !scanLines_cons, step_trim, IH.
Qed.

Lemma step_same_trim st a b : trim a = trim b -> step st a = step st b.
Proof. intros E. now rewrite <- (step_trim st a), <- (step_trim st b), E. Qed.

(** X6: the counts depend on the lines only through [trim]: trimming
    every line, ending every line with a carriage return (a file with
    CRLF line ends split on LF), or indenting every line changes no
    counter. *)
Theorem indentation_and_carriage_returns_ignored (lines : list jsstring) :
  countCodeLines (map trim lines) = countCodeLines lines
  /\ countCodeLines (map (fun line => line ++ [13%N]) lines) = countCodeLines lines
  /\ forall indent,
       Forall (fun c => isSpace c = true) indent ->
       countCodeLines (map (fun line => indent ++ line) lines) = countCodeLines lines.
Proof.
  unfold countCodeLines. split; [|split].
  - now rewrite scanLines_trim.
  - f_equal. generalize initialScan.
    induction lines as [|line lines IH]; intros st; [reflexivity|].
    cbn [map]. rewrite !scanLines_cons, IH.
    now rewrite (step_same_trim st _ line (trim_snoc_space line 13 eq_refl)).
  - intros indent Hind. f_equal. generalize initialScan.
    induction lines as [|line lines IH]; intros st; [reflexivity|].
    cbn [map]. rewrite !scanLines_cons, IH. f_equal.
    apply step_same_trim. clear -Hind.
    induction Hind as [|c indent Hc _ IHi]; [reflexivity|].
    cbn [app]. now rewrite trim_cons_space.
Qed.

Lemma text_without_comment_markers_witness :
  commentLines (countCodeLines [lit "const x = 1;"; lit ""]) = 0.
Proof.
  apply (text_without_comment_markers [lit "const x = 1;"; lit ""]).
  repeat constructor.
Defined.

Lemma counts_add_up_outside_block_witness :
  countCodeLines ([lit "a"] ++ [lit "// b"])
  = addCounts (countCodeLines [lit "a"]) (countCodeLines [lit "// b"]).
Proof.
  apply (counts_add_up_outside_block [lit "a"] [lit "// b"]). reflexivity.
Defined.

(** ** Splitting: the terminator and the lines of a file *)

Lemma startsWith_skipn p s : startsWith p s = true -> s = p ++ skipn (List.length p) s.
Proof.
  revert s. induction p as [|a p IH]; intros s H; [reflexivity|].
  destruct s as [|b s]; [discriminate|]. cbn [startsWith] in H.
  apply andb_true_iff in H. destruct H as [Hab H].
  apply N.eqb_eq in Hab. subst b. cbn [List.length skipn app].
  f_equal. now apply IH.
Qed.

Lemma join_cons_nonempty sep p pieces :
  pieces <> [] -> join sep (p :: pieces) = p ++ sep ++ join sep pieces.
Proof. destruct pieces; [congruence | reflexivity]. Qed.

Lemma join_split_from sep : sep <> [] -> forall s skip,
  join sep (split_from sep skip s) = skipn skip s.
Proof.
  intros Hsep. induction s as [|c s IH]; intros skip.
  - now destruct skip.
  - cbn [split_from]. destruct skip as [|k]; [|apply IH].
    cbn [skipn]. destruct (startsWith sep (c :: s)) eqn:E.
    + rewrite join_cons_nonempty by apply split_from_nonempty.
      rewrite IH. cbn [app].
      etransitivity; [|symmetry; apply (startsWith_skipn _ _ E)].
      destruct sep as [|a sep']; [congruence|]. reflexivity.
    + specialize (IH 0%nat). cbn [skipn] in IH.
      pose proof (split_from_nonempty sep 0 s) as Hne.
      destruct (split_from sep 0 s) as [|piece pieces]; [congruence|].
      destruct pieces as [|q pieces].
      * cbn [join] in *. now rewrite IH.
      * cbn [join] in *. cbn [app]. now rewrite IH.
Qed.

Lemma join_split sep s : sep <> [] -> join sep (split sep s) = s.
Proof. intros H. unfold split. now rewrite join_split_from. Qed.

Lemma first_split_prefix sep s : exists behind, s = first (split sep s) ++ behind.
Proof.
  unfold split. induction s as [|c s [behind IH]]; [now exists []|].
  cbn [split_from]. destruct (startsWith sep (c :: s)).
  - now exists (c :: s).
  - destruct (split_from sep 0 s) as [|piece pieces]; cbn [first hd] in *.
    + exists s. reflexivity.
    + exists behind. cbn [app]. now f_equal.
Qed.

Lemma first_split_clean sep s : sep <> [] -> includes sep (first (split sep s)) = false.
Proof.
  intros Hsep. induction s as [|c s IH].
  - destruct sep; [congruence | reflexivity].
  - destruct (first_split_prefix sep s) as [behind Eb].
    unfold split in *. cbn [split_from].
    destruct (startsWith sep (c :: s)) eqn:E.
    + destruct sep; [congruence | reflexivity].
    + pose proof (split_from_nonempty sep 0 s) as Hne.
      destruct (split_from sep 0 s) as [|piece pieces]; [congruence|].
      cbn [first hd] in *. cbn [includes]. rewrite IH, orb_false_r.
      destruct (startsWith sep (c :: piece)) eqn:E'; [|reflexivity].
      apply (startsWith_app_l _ _ behind) in E'. cbn [app] in E'.
      rewrite <- Eb in E'. congruence.
Qed.

Lemma includes_pair_snoc a b x :
  (a =? b)%N = false ->
  includes [a; b] x = false -> includes [a; b] (x ++ [a]) = false.
Proof.
  intros Hab. induction x as [|c x IH]; intros H.
  - cbn. rewrite N.eqb_refl. reflexivity.
  - cbn [includes app] in *. apply orb_false_iff in H. destruct H as [H1 H2].
    rewrite (IH H2), orb_false_r.
    cbn [startsWith] in *. destruct (a =? c)%N; [|reflexivity]. cbn [andb] in *.
    destruct x as [|d x]; cbn [app].
    + now rewrite N.eqb_sym, Hab.
    + exact H1.
Qed.

(** X7: on a line that holds the terminator, the text the classifier
    goes on with is the trimmed text behind the FIRST terminator: the
    line is [before ++ blockClose ++ behind], no terminator begins inside
    [before], and [afterTerminator] is [trim behind] (later
    terminators stay in it). *)
Theorem afterTerminator_is_behind_first_terminator (line : jsstring) :
  includes blockClose line = true ->
  exists before behind,
    line = before ++ blockClose ++ behind
    /\ includes blockClose (before ++ lit "*") = false
    /\ afterTerminator line = trim behind.
Proof.
  intros H.
  assert (Hsep : blockClose <> []) by discriminate.
  pose proof (join_split blockClose line Hsep) as Hj.
  pose proof (first_split_clean blockClose line Hsep) as Hc.
  pose proof (split_length blockClose line) as Hl.
  unfold afterTerminator, slice1.
  destruct (split blockClose line) as [|before pieces]; [cbn in Hl; lia|].
  cbn [first hd tl] in *.
  destruct pieces as [|p pieces].
  - cbn [join] in Hj. subst before. congruence.
  - exists before, (join blockClose (p :: pieces)).
    split; [|split; [|reflexivity]].
    + rewrite <- Hj at 1. apply join_cons_nonempty. discriminate.
    + apply (includes_pair_snoc 42 47 before eq_refl Hc).
Qed.


Lemma split_char_cons c d s :
  split [c] (d :: s)
  = if (c =? d)%N then [] :: split [c] s
    else (d :: first (split [c] s)) :: slice1 (split [c] s).
Proof.
  unfold split. cbn [split_from startsWith List.length Nat.pred].
  rewrite andb_true_r. destruct (c =? d)%N; [reflexivity|].
  pose proof (split_from_nonempty [c] 0 s).
  destruct (split_from [c] 0 s); [congruence | reflexivity].
Qed.

Lemma split_char_length c s :
  List.length (split [c] s) = S (List.length (List.filter (N.eqb c) s)).
Proof.
  induction s as [|d s IH]; [reflexivity|].
  rewrite split_char_cons. cbn [List.filter].
  pose proof (split_length [c] s) as Hl.
  destruct (c =? d)%N; cbn [List.length]; [now rewrite IH|].
  rewrite <- IH. unfold slice1.
  destruct (split [c] s); cbn [List.length tl] in *; lia.
Qed.

Lemma split_char_app c a b :
  split [c] (a ++ c :: b) = split [c] a ++ split [c] b.
Proof.
  induction a as [|d a IH].
  - cbn [app]. rewrite split_char_cons, N.eqb_refl. reflexivity.
  - cbn [app]. rewrite !split_char_cons, IH.
    destruct (c =? d)%N; [reflexivity|].
    pose proof (split_length [c] a) as Hl.
    destruct (split [c] a); cbn [List.length] in Hl; [lia | reflexivity].
Qed.

(** X8: for a file that is read and stat-ed, [totalLines] is the number
    of line feeds plus one and [fileSize] is the size of the stat; so a
    text that ends with a line feed is reported with one more line than
    it has, and that last line is counted in [emptyLines]. *)
Theorem totalLines_is_newlines_plus_one
    (fs : FileSystem) (filePath content : jsstring) (size : Z) :
  readFileSync fs filePath = Some content ->
  statSize fs filePath = Some size ->
  totalLines (analyzeFile fs filePath) = countNewlines content + 1
  /\ fileSize (analyzeFile fs filePath) = size
  /\ (forall body, content = body ++ [10%N] ->
        1 <= emptyLines (counts (analyzeFile fs filePath))
        /\ totalLines (analyzeFile fs filePath)
           = Z.of_nat (List.length (split [10%N] body)) + 1).
Proof.
  intros Hr Hs. unfold analyzeFile. rewrite Hr, Hs.
  cbn [totalLines fileSize counts]. split; [|split; [reflexivity|]].
  - rewrite split_char_length. unfold countNewlines. lia.
  - intros body ->. rewrite split_char_app.
    change (split [10%N] []) with [@nil N].
    rewrite List.length_app. cbn [List.length]. split; [|lia].
    unfold countCodeLines. rewrite scanLines_empty.
    unfold countBlank. rewrite List.filter_app, List.length_app.
    cbn. lia.
Qed.

Lemma afterTerminator_is_behind_first_terminator_witness :
  exists before behind,
    lit "end */ x" = before ++ blockClose ++ behind
    /\ includes blockClose (before ++ lit "*") = false
    /\ afterTerminator (lit "end */ x") = trim behind.
Proof.
  apply (afterTerminator_is_behind_first_terminator (lit "end */ x")).
  reflexivity.
Defined.

Lemma totalLines_is_newlines_plus_one_witness :
  totalLines (analyzeFile emptyFilesFS (lit "/w/a.ts")) = countNewlines [] + 1.
Proof.
  apply (totalLines_is_newlines_plus_one emptyFilesFS (lit "/w/a.ts") [] 0);
    reflexivity.
Defined.

(** ** What the walk finds *)

Section WalkMore.

Variable sep : N.
Variable RegExp : Type.
Variable test : RegExp -> jsstring -> bool.
Variable gitignorePatterns : list RegExp.

Local Abbreviation ignored := (shouldIgnorePath sep RegExp test gitignorePatterns).
Local Abbreviation walk := (visit sep RegExp test gitignorePatterns).
Local Abbreviation Found := (Found sep RegExp test gitignorePatterns).


Lemma fold_visit_append dir rel entries :
  Forall (fun item => forall dir rel files,
            walk dir rel files item = files ++ walk dir rel [] item) entries ->
  forall files,
    fold_left (walk dir rel) entries files
    = files ++ flat_map (walk dir rel []) entries.
Proof.
  induction 1 as [|item entries Hitem _ IH]; intros files; cbn [fold_left flat_map].
  - now rewrite app_nil_r.
  - rewrite IH, Hitem. now rewrite <- app_assoc.
Qed.

Lemma visit_append item : forall dir rel files,
  walk dir rel files item = files ++ walk dir rel [] item.
Proof.
  induction item as [name | name | name | name entries IH] using Dirent_nested_ind;
    intros dir rel files; cbn [visit direntName].
  - destruct (shouldIgnorePath _ _ _ _ _); [now rewrite app_nil_r|].
    destruct (isTsName name); [reflexivity | now rewrite app_nil_r].
  - destruct (shouldIgnorePath _ _ _ _ _); now rewrite app_nil_r.
  - destruct (shouldIgnorePath _ _ _ _ _); now rewrite app_nil_r.
  - destruct (shouldIgnorePath _ _ _ _ _); [now rewrite app_nil_r|].
    rewrite (fold_visit_append _ _ _ IH files).
    now rewrite (fold_visit_append _ _ _ IH []).
Qed.

Lemma fold_visit_flat dir rel entries files :
  fold_left (walk dir rel) entries files
  = files ++ flat_map (walk dir rel []) entries.
Proof.
  apply fold_visit_append. apply List.Forall_forall. intros item _. apply visit_append.
Qed.

Lemma visit_found item : forall dir rel file,
  In file (walk dir rel [] item) <-> Found dir rel item file.
Proof.
  induction item as [name | name | name | name entries IH] using Dirent_nested_ind;
    intros dir rel file; cbn [visit direntName].
  - destruct (shouldIgnorePath _ _ _ _ _) eqn:Hi.
    + split; [intros [] | intros H; inversion H; congruence].
    + destruct (isTsName name) eqn:Ht.
      * cbn [app In]. split.
        -- intros [<- | []]. now constructor.
        -- intros H. inversion H; subst. now left.
      * split; [intros [] | intros H; inversion H; congruence].
  - destruct (shouldIgnorePath _ _ _ _ _);
      (split; [intros [] | intros H; inversion H]).
  - destruct (shouldIgnorePath _ _ _ _ _);
      (split; [intros [] | intros H; inversion H]).
  - destruct (shouldIgnorePath _ _ _ _ _) eqn:Hi.
    + split; [intros [] | intros H; inversion H; congruence].
    + rewrite fold_visit_flat. cbn [app]. rewrite in_flat_map.
      rewrite List.Forall_forall in IH. split.
      * intros [item [Hin Hf]]. apply (IH item Hin) in Hf.
        now apply (Found_below _ _ _ _ _ _ _ _ item).
      * intros H. inversion H; subst. exists item. split; [assumption|].
        now apply IH.
Qed.

Lemma endsWith_decompose p s : endsWith p s = true -> exists stem, s = stem ++ p.
Proof.
  unfold endsWith. intros H. apply startsWith_skipn in H.
  exists (rev (skipn (List.length (rev p)) (rev s))).
  rewrite <- (rev_involutive s), H at 1.
  now rewrite rev_app_distr, rev_involutive.
Qed.

Lemma split_char_none c s : ~ In c s -> split [c] s = [s].
Proof.
  induction s as [|d s IH]; intros Hn; [reflexivity|].
  rewrite split_char_cons.
  destruct (c =? d)%N eqn:E.
  - apply N.eqb_eq in E. subst d. exfalso. apply Hn. now left.
  - rewrite IH; [reflexivity|]. intros Hin. apply Hn. now right.
Qed.

Lemma pathRelative_last_segment rel name :
  ~ In sep name -> In name (split [sep] (pathRelative sep rel name)).
Proof.
  intros Hn. unfold pathRelative. destruct (isEmpty rel).
  - rewrite (split_char_none sep name Hn). now left.
  - cbn [app]. rewrite split_char_app, (split_char_none sep name Hn).
    apply in_or_app. right. now left.
Qed.

Lemma Found_shape dir rel item file :
  Found dir rel item file ->
  isTsName (name file) = true
  /\ (exists front, relativePath file = front ++ name file)
  /\ (exists front, fullPath file = front ++ name file).
Proof.
  induction 1 as [dir rel n Hi Ht | dir rel n entries item file Hi Hin _ IH];
    [|exact IH].
  cbn [name relativePath fullPath]. split; [exact Ht|]. split.
  - unfold pathRelative. destruct (isEmpty rel); [now exists [] |].
    exists (rel ++ [sep]). now rewrite <- app_assoc.
  - unfold pathJoin. destruct (endsWith [sep] dir); [now exists dir|].
    exists (dir ++ [sep]). now rewrite <- app_assoc.
Qed.

Lemma findTsFiles_found fs entries file :
  In file (findTsFiles sep RegExp test gitignorePatterns fs (Some entries))
  <-> exists item, In item entries /\ Found (cwd fs) [] item file.
Proof.
  unfold findTsFiles. rewrite fold_visit_flat. cbn [app].
  rewrite in_flat_map. split; intros [item [Hin H]]; exists item; (split; [exact Hin|]);
    now apply visit_found.
Qed.

End WalkMore.

(** X11: the shared accumulator of [findTsFiles] only grows at its end:
    visiting an entry appends what the entry yields on an empty
    accumulator, a directory yields the concatenation of what its
    entries yield, in the order of [readdirSync], and the result for
    two runs of entries is the concatenation of the results. *)
Theorem findTsFiles_in_directory_order
    (sep : N) (RegExp : Type) (test : RegExp -> jsstring -> bool)
    (gitignorePatterns : list RegExp) :
  let walk := visit sep RegExp test gitignorePatterns in
  (forall dir rel files item,
     walk dir rel files item = files ++ walk dir rel [] item)
  /\ (forall dir rel files entries,
        fold_left (walk dir rel) entries files
        = files ++ flat_map (walk dir rel []) entries)
  /\ (forall fs entries,
        findTsFiles sep RegExp test gitignorePatterns fs (Some entries)
        = flat_map (walk (cwd fs) [] []) entries)
  /\ (forall fs before after,
        findTsFiles sep RegExp test gitignorePatterns fs (Some (before ++ after))
        = findTsFiles sep RegExp test gitignorePatterns fs (Some before)
          ++ findTsFiles sep RegExp test gitignorePatterns fs (Some after)).
Proof.
  intros walk. subst walk.
  assert (H : forall fs entries,
             findTsFiles sep RegExp test gitignorePatterns fs (Some entries)
             = flat_map (visit sep RegExp test gitignorePatterns (cwd fs) [] []) entries).
  { intros fs entries. unfold findTsFiles. now rewrite fold_visit_flat. }
  split; [|split; [|split]].
  - intros. apply visit_append.
  - intros. apply fold_visit_flat.
  - exact H.
  - intros fs before after. rewrite !H. apply flat_map_app.
Qed.

(** X12: [findTsFiles] returns exactly the files that [Found] describes:
    a file with one of the two extensions, reached through readable
    directories, such that neither its relative path nor that of a
    directory above it is ignored. *)
Theorem findTsFiles_finds_exactly
    (sep : N) (RegExp : Type) (test : RegExp -> jsstring -> bool)
    (gitignorePatterns : list RegExp) (fs : FileSystem)
    (entries : list Dirent) (file : FileHandle) :
  In file (findTsFiles sep RegExp test gitignorePatterns fs (Some entries))
  <-> exists item,
        In item entries
        /\ Found sep RegExp test gitignorePatterns (cwd fs) [] item file.
Proof.
  apply findTsFiles_found.
Qed.

(** X13: every file [findTsFiles] returns has a name that ends in [.ts]
    or in [.tsx], and its relative path and its full path end with its
    name. *)
Theorem found_files_end_in_ts
    (sep : N) (RegExp : Type) (test : RegExp -> jsstring -> bool)
    (gitignorePatterns : list RegExp) (fs : FileSystem)
    (root : option (list Dirent)) (file : FileHandle) :
  In file (findTsFiles sep RegExp test gitignorePatterns fs root) ->
  (exists stem, name file = stem ++ lit ".ts" \/ name file = stem ++ lit ".tsx")
  /\ (exists front, relativePath file = front ++ name file)
  /\ (exists front, fullPath file = front ++ name file).
Proof.
  destruct root as [entries|]; [|intros []].
  intros H. apply findTsFiles_found in H. destruct H as [item [_ H]].
  apply Found_shape in H. destruct H as (Ht & Hr & Hf).
  split; [|split; assumption].
  unfold isTsName in Ht. apply orb_true_iff in Ht.
  destruct Ht as [Ht | Ht]; apply endsWith_decompose in Ht;
    destruct Ht as [stem E]; exists stem; [left | right]; exact E.
Qed.

(** X14: an entry whose name is one of the eleven fixed names (and holds
    no path separator) is skipped at any depth, whatever it is and
    whatever lies below it: the accumulator comes back unchanged. *)
Theorem ignored_name_never_entered
    (sep : N) (RegExp : Type) (test : RegExp -> jsstring -> bool)
    (gitignorePatterns : list RegExp)
    (dir rel : jsstring) (files : list FileHandle) (item : Dirent) :
  In (direntName item) ignoredNames ->
  ~ In sep (direntName item) ->
  visit sep RegExp test gitignorePatterns dir rel files item = files.
Proof.
  intros Hname Hsep.
  assert (Hi : shouldIgnorePath sep RegExp test gitignorePatterns
                 (pathRelative sep rel (direntName item)) = true).
  { apply shouldIgnorePath_spec. left. exists (direntName item). split.
    - now apply pathRelative_last_segment.
    - unfold ignoredDirs. rewrite elem_of_list_to_set. now apply list_elem_of_In. }
  destruct item; cbn [visit direntName] in *; now rewrite Hi.
Qed.

(** X15: a directory that cannot be read, an entry that is neither file
    nor directory, and a file without one of the two extensions add
    nothing, and the walk goes on with the entries behind them: the
    result is that of the listing without the entry. *)
Theorem barren_entries_add_nothing
    (sep : N) (RegExp : Type) (test : RegExp -> jsstring -> bool)
    (gitignorePatterns : list RegExp) (fs : FileSystem)
    (before after : list Dirent) (item : Dirent) :
  (exists name, item = Directory name None
                \/ item = Other name
                \/ (item = File name /\ isTsName name = false)) ->
  findTsFiles sep RegExp test gitignorePatterns fs (Some (before ++ item :: after))
  = findTsFiles sep RegExp test gitignorePatterns fs (Some (before ++ after)).
Proof.
  intros [name H].
  assert (E : visit sep RegExp test gitignorePatterns (cwd fs) [] [] item = []).
  { destruct H as [-> | [-> | [-> Ht]]]; cbn [visit direntName];
      destruct (shouldIgnorePath _ _ _ _ _); try reflexivity.
    now rewrite Ht. }
  unfold findTsFiles. rewrite !fold_visit_flat, !flat_map_app.
  cbn [flat_map]. now rewrite E.
Qed.

Lemma found_files_end_in_ts_witness :
  exists stem, name sampleHandle = stem ++ lit ".ts"
               \/ name sampleHandle = stem ++ lit ".tsx".
Proof.
  apply (found_files_end_in_ts 47%N unit noMatch [] emptyFilesFS
           (Some sampleEntries) sampleHandle).
  left. reflexivity.
Defined.

Lemma ignored_name_never_entered_witness :
  visit 47%N unit noMatch [] (lit "/w") [] []
        (Directory (lit "node_modules") (Some [File (lit "e.ts")])) = [].
Proof.
  apply (ignored_name_never_entered 47%N unit noMatch [] (lit "/w") [] []
           (Directory (lit "node_modules") (Some [File (lit "e.ts")]))).
  - left. reflexivity.
  - cbn. intros H. repeat (destruct H as [H | H]; [discriminate H|]). exact H.
Defined.

Lemma barren_entries_add_nothing_witness :
  findTsFiles 47%N unit noMatch [] emptyFilesFS
    (Some ([File (lit "a.ts")] ++ Directory (lit "locked") None :: []))
  = findTsFiles 47%N unit noMatch [] emptyFilesFS (Some ([File (lit "a.ts")] ++ [])).
Proof.
  apply (barren_entries_add_nothing 47%N unit noMatch [] emptyFilesFS
           [File (lit "a.ts")] [] (Directory (lit "locked") None)).
  exists (lit "locked"). left. reflexivity.
Defined.

(** ** The ignore-file *)



Section IgnoreFile.

Variable sep : N.
Variable RegExp : Type.
Variable newRegExp : jsstring -> option RegExp.

Local Abbreviation load := (loadGitignore sep RegExp newRegExp).
Local Abbreviation convert := (convertGitignoreToRegex RegExp newRegExp).

Lemma mapThrowing_Some {A B} (f : A -> option B) l r :
  mapThrowing f l = Some r -> Forall2 (fun x y => f x = Some y) l r.
Proof.
  revert r. induction l as [|x l IH]; intros r; cbn [mapThrowing].
  - intros [= <-]. constructor.
  - destruct (f x) as [y|] eqn:E; [|discriminate].
    destruct (mapThrowing f l) as [r'|]; [|discriminate].
    intros [= <-]. constructor; [exact E | now apply IH].
Qed.

Lemma mapThrowing_None {A B} (f : A -> option B) l x :
  In x l -> f x = None -> mapThrowing f l = None.
Proof.
  intros Hin Hx. induction l as [|y l IH]; [destruct Hin|].
  cbn [mapThrowing]. destruct Hin as [-> | Hin].
  - now rewrite Hx.
  - destruct (f y); [|reflexivity]. now rewrite (IH Hin).
Qed.

Lemma loadGitignore_read fs content :
  existsSync fs (pathJoin sep (cwd fs) (lit ".gitignore")) = true ->
  readFileSync fs (pathJoin sep (cwd fs) (lit ".gitignore")) = Some content ->
  load fs = match mapThrowing convert (patternLines content) with
            | Some patterns => patterns
            | None => []
            end.
Proof. intros He Hr. unfold loadGitignore. now rewrite He, Hr. Qed.

End IgnoreFile.

(** X17: [loadGitignore] is all or nothing: either it leaves no pattern
    at all, or the ignore-file was read and there is exactly one regular
    expression per pattern line, in the order of the file, each compiled
    from the string [convertGitignoreToRegex] builds for its line; a
    pattern line is trimmed, not empty, and does not begin with [#]. *)
Theorem loadGitignore_all_or_nothing
    (sep : N) (RegExp : Type) (newRegExp : jsstring -> option RegExp)
    (fs : FileSystem) :
  loadGitignore sep RegExp newRegExp fs = []
  \/ exists content,
       readFileSync fs (pathJoin sep (cwd fs) (lit ".gitignore")) = Some content
       /\ Forall2 (fun line regex => newRegExp (regexPattern line) = Some regex)
                  (patternLines content)
                  (loadGitignore sep RegExp newRegExp fs)
       /\ Forall (fun line => isEmpty line = false
                              /\ startsWith (lit "#") line = false
                              /\ trim line = line)
                 (patternLines content).
Proof.
  unfold loadGitignore.
  destruct (existsSync fs _); cbn [negb]; [|now left].
  destruct (readFileSync fs _) as [content|] eqn:Hr; [|now left].
  fold (patternLines content).
  destruct (mapThrowing _ (patternLines content)) as [patterns|] eqn:Hm; [|now left].
  right. exists content. split; [reflexivity|]. split.
  - exact (mapThrowing_Some _ _ _ Hm).
  - apply List.Forall_forall. intros line Hin.
    unfold patternLines in Hin. apply List.filter_In in Hin.
    destruct Hin as [Hin Hp]. unfold isPatternLine in Hp.
    apply andb_true_iff in Hp. destruct Hp as [H1 H2].
    apply negb_true_iff in H1. apply negb_true_iff in H2.
    split; [exact H1|]. split; [exact H2|].
    apply List.in_map_iff in Hin. destruct Hin as [raw [<- _]]. apply trim_idem.
Qed.

(** X18: the ways [loadGitignore] ends without patterns: the ignore-file
    does not exist, it cannot be read, or ONE of its pattern lines does
    not compile; in the last case the patterns of the other lines are
    lost too. *)
Theorem loadGitignore_failures
    (sep : N) (RegExp : Type) (newRegExp : jsstring -> option RegExp)
    (fs : FileSystem) :
  let gitignorePath := pathJoin sep (cwd fs) (lit ".gitignore") in
  (existsSync fs gitignorePath = false ->
   loadGitignore sep RegExp newRegExp fs = [])
  /\ (readFileSync fs gitignorePath = None ->
      loadGitignore sep RegExp newRegExp fs = [])
  /\ (forall content line,
        readFileSync fs gitignorePath = Some content ->
        In line (patternLines content) ->
        newRegExp (regexPattern line) = None ->
        loadGitignore sep RegExp newRegExp fs = []).
Proof.
  intros gitignorePath. subst gitignorePath. unfold loadGitignore.
  split; [|split].
  - now intros ->.
  - intros ->. now destruct (negb _).
  - intros content line -> Hin Hbad. destruct (negb _); [reflexivity|].
    fold (patternLines content).
    now rewrite (mapThrowing_None _ _ line Hin Hbad).
Qed.




Lemma replaceChar_app c by_ a b :
  replaceChar c by_ (a ++ b) = replaceChar c by_ a ++ replaceChar c by_ b.
Proof.
  induction a as [|d a IH]; [reflexivity|]. cbn [app replaceChar].
  destruct (d =? c)%N; rewrite IH; [now rewrite app_assoc | reflexivity].
Qed.

Lemma startsWith_refl_app p s : startsWith p (p ++ s) = true.
Proof.
  induction p as [|a p IH]; [reflexivity|]. cbn [app startsWith].
  now rewrite N.eqb_refl, IH.
Qed.

Lemma endsWith_app p s : endsWith p (s ++ p) = true.
Proof. unfold endsWith. rewrite rev_app_distr. apply startsWith_refl_app. Qed.

(** X19: [convertGitignoreToRegex] translates a pattern code unit by
    code unit: a dot becomes an escaped dot, a star becomes the starred
    class of the code units other than the slash, anything else stays;
    a pattern without dot and star is its own regular expression, and a
    trailing slash is replaced by the suffix that admits the directory
    and everything below it. *)
Theorem regexPattern_char_by_char (pattern : jsstring) :
  let body := flat_map translateChar pattern in
  (endsWith (lit "/") pattern = false -> regexPattern pattern = body)
  /\ (forall stem, pattern = stem ++ lit "/" ->
        regexPattern pattern = flat_map translateChar stem ++ lit "(/.*)?$")
  /\ (~ In 46%N pattern -> ~ In 42%N pattern -> body = pattern).
Proof.
  assert (Hbody : forall p,
            replaceChar 42 (lit "[^/]*") (replaceChar 46 (lit "\.") p)
            = flat_map translateChar p).
  { induction p as [|c p IH]; [reflexivity|].
    cbn [replaceChar flat_map]. unfold translateChar at 1.
    destruct (c =? 46)%N eqn:E46.
    - rewrite replaceChar_app, IH. reflexivity.
    - cbn [replaceChar]. destruct (c =? 42)%N; now rewrite IH. }
  assert (Hreg : forall p,
            regexPattern p
            = if endsWith (lit "/") p
              then dropLast (flat_map translateChar p) ++ lit "(/.*)?$"
              else flat_map translateChar p).
  { intros p. unfold regexPattern.
    rewrite replaceLit_absent by apply replaceChar_star_apart.
    now rewrite Hbody. }
  intros body. subst body. split; [|split].
  - intros He. now rewrite Hreg, He.
  - intros stem ->. rewrite Hreg, endsWith_app, flat_map_app.
    change (flat_map translateChar (lit "/")) with [47%N].
    unfold dropLast. now rewrite removelast_last.
  - intros H46 H42. induction pattern as [|c p IH]; [reflexivity|].
    cbn [flat_map]. unfold translateChar at 1.
    destruct (c =? 46)%N eqn:E46; [apply N.eqb_eq in E46; subst; exfalso; apply H46; now left|].
    destruct (c =? 42)%N eqn:E42; [apply N.eqb_eq in E42; subst; exfalso; apply H42; now left|].
    cbn [app]. f_equal. apply IH; intros Hin; [apply H46 | apply H42]; now right.
Qed.


(** ** Statistics, totals and ranking *)

Lemma countBlank_bounds lines : 0 <= countBlank lines <= Z.of_nat (List.length lines).
Proof.
  unfold countBlank. pose proof (List.filter_length_le isBlank lines). lia.
Qed.

(** X9: every record [analyzeFile] returns, the all-zero one included,
    keeps these bounds: [emptyLines] is at most [totalLines],
    [codeLines] is at most the number of lines that are not blank,
    [importLines] is at most [codeLines], [commentLines] is at most
    twice the number of lines that are not blank, and none is negative. *)
Theorem analyzeFile_record_bounds (fs : FileSystem) (filePath : jsstring) :
  let s := analyzeFile fs filePath in
  0 <= emptyLines (counts s) <= totalLines s
  /\ 0 <= codeLines (counts s) <= totalLines s - emptyLines (counts s)
  /\ 0 <= importLines (counts s) <= codeLines (counts s)
  /\ 0 <= commentLines (counts s) <= 2 * (totalLines s - emptyLines (counts s)).
Proof.
  unfold analyzeFile.
  destruct (readFileSync fs filePath) as [content|]; [|cbn; lia].
  destruct (statSize fs filePath) as [size|]; [|cbn; lia].
  cbv zeta. cbn [totalLines counts].
  set (lines := split [10%N] content).
  pose proof (countCodeLines_bounds lines) as Hb.
  pose proof (scanLines_import_code lines initialScan) as Hi.
  pose proof (countBlank_bounds lines) as Hc.
  assert (He : emptyLines (countCodeLines lines) = countBlank lines).
  { unfold countCodeLines. now rewrite scanLines_empty. }
  unfold countCodeLines in *. cbv zeta in *. cbn in Hi. lia.
Qed.

Lemma analyzeFile_record_bounds_aux fs filePath :
  0 <= totalLines (analyzeFile fs filePath).
Proof.
  unfold analyzeFile.
  destruct (readFileSync fs filePath); [|cbn; lia].
  destruct (statSize fs filePath); cbn; lia.
Qed.

Lemma analyzeFile_positive_iff fs filePath :
  (0 <? totalLines (analyzeFile fs filePath)) = readable fs filePath.
Proof.
  unfold analyzeFile, readable.
  destruct (readFileSync fs filePath) as [content|]; [|reflexivity].
  destruct (statSize fs filePath); [|reflexivity].
  cbn [totalLines]. pose proof (split_length [10%N] content).
  apply Z.ltb_lt. lia.
Qed.

(** X10: [analyzeFile] returns [totalLines = 0] exactly when the read
    or the stat fails, so the statistics [analyze] keeps are those of
    the files that could be read and stat-ed, in the order they were
    found. *)
Theorem fileStatsOf_keeps_the_readable (fs : FileSystem) (tsFiles : list FileHandle) :
  (forall filePath,
     totalLines (analyzeFile fs filePath) = 0 <-> readable fs filePath = false)
  /\ fileStatsOf fs tsFiles
     = map (fun file => mkFileStat file (analyzeFile fs (fullPath file)))
           (List.filter (fun file => readable fs (fullPath file)) tsFiles).
Proof.
  split.
  - intros filePath. rewrite <- analyzeFile_positive_iff.
    pose proof (analyzeFile_record_bounds_aux fs filePath).
    rewrite Z.ltb_ge. lia.
  - induction tsFiles as [|file files IH]; [reflexivity|].
    rewrite fileStatsOf_cons, analyzeFile_positive_iff. cbn [List.filter].
    destruct (readable fs (fullPath file)); cbn [map]; now rewrite IH.
Qed.

Lemma addStats_assoc a b c : addStats (addStats a b) c = addStats a (addStats b c).
Proof.
  destruct a as [ta [a1 a2 a3 a4] sa], b as [tb [b1 b2 b3 b4] sb],
    c as [tc [c1 c2 c3 c4] sc].
  unfold addStats. cbn. f_equal; [lia | f_equal; lia | lia].
Qed.

Lemma addStats_comm a b : addStats a b = addStats b a.
Proof.
  destruct a as [ta [a1 a2 a3 a4] sa], b as [tb [b1 b2 b3 b4] sb].
  unfold addStats. cbn. f_equal; [lia | f_equal; lia | lia].
Qed.

Lemma addStats_zero_l a : addStats zeroStatistics a = a.
Proof. destruct a as [ta [a1 a2 a3 a4] sa]. reflexivity. Qed.

Lemma addStats_zero_r a : addStats a zeroStatistics = a.
Proof. now rewrite addStats_comm, addStats_zero_l. Qed.

Lemma fold_addStats l : forall acc,
  fold_left (fun acc file => addStats acc (stats file)) l acc
  = addStats acc (totalsOf l).
Proof.
  unfold totalsOf. induction l as [|x l IH]; intros acc; cbn [fold_left].
  - now rewrite addStats_zero_r.
  - rewrite IH, (IH (addStats zeroStatistics (stats x))).
    now rewrite addStats_zero_l, addStats_assoc.
Qed.

Lemma totalsOf_cons x l : totalsOf (x :: l) = addStats (stats x) (totalsOf l).
Proof.
  unfold totalsOf at 1. cbn [fold_left]. now rewrite fold_addStats, addStats_zero_l.
Qed.

Lemma totalsOf_app l1 l2 : totalsOf (l1 ++ l2) = addStats (totalsOf l1) (totalsOf l2).
Proof.
  induction l1 as [|x l1 IH]; cbn [app].
  - now rewrite addStats_zero_l.
  - now rewrite !totalsOf_cons, IH, addStats_assoc.
Qed.

Lemma totalsOf_perm l l' : Permutation l l' -> totalsOf l = totalsOf l'.
Proof.
  induction 1 as [|x l l' _ IH|x y l|l l' l'' _ IH1 _ IH2].
  - reflexivity.
  - now rewrite !totalsOf_cons, IH.
  - rewrite !totalsOf_cons, <- !addStats_assoc. f_equal. apply addStats_comm.
  - now rewrite IH1.
Qed.

(** X20: the totals and the whole report of [generateReport] do not
    depend on the order of the files, which the directory enumeration
    decides. *)
Theorem report_independent_of_file_order (l l' : list FileStat) :
  Permutation l l' ->
  totalsOf l = totalsOf l' /\ generateReport l = generateReport l'.
Proof.
  intros Hp. pose proof (totalsOf_perm l l' Hp) as Ht.
  split; [exact Ht|]. unfold generateReport.
  now rewrite Ht, (Permutation_length Hp).
Qed.


Lemma totalsOf_at_least l :
  Forall (fun x => 1 <= totalLines (stats x)) l ->
  Z.of_nat (List.length l) <= totalLines (totalsOf l).
Proof.
  induction 1 as [|x l Hx _ IH]; [cbn; lia|].
  rewrite totalsOf_cons. cbn [List.length]. unfold addStats. cbn [totalLines]. lia.
Qed.

(** X21: for the statistics [analyze] hands to the report, the aggregate
    [totalLines] is at least the number of files; it is 0, the case in
    which the percentages are not numbers, exactly when no file is left
    after the filter. *)
Theorem zero_total_only_when_nothing_survives
    (fs : FileSystem) (tsFiles : list FileHandle) :
  let fileStats := fileStatsOf fs tsFiles in
  Z.of_nat (List.length fileStats) <= totalLines (totalsOf fileStats)
  /\ (totalLines (totalsOf fileStats) = 0 <-> fileStats = []).
Proof.
  intros fileStats.
  assert (H : Z.of_nat (List.length fileStats) <= totalLines (totalsOf fileStats)).
  { apply totalsOf_at_least. apply List.Forall_forall. intros x Hx.
    apply fileStatsOf_positive in Hx. lia. }
  split; [exact H|]. split.
  - intros Hz. destruct fileStats; [reflexivity | cbn [List.length] in H; lia].
  - now intros ->.
Qed.

(** X22: when files were found but none of them can be read or stat-ed,
    [analyze] does not take the no-files exit (that test is on the list
    before the filter): it reports on the empty list of statistics and
    ranks nothing. *)
Theorem all_files_failed_still_reports
    (fs : FileSystem) (tsFiles : list FileHandle) :
  tsFiles <> [] ->
  Forall (fun file => readFileSync fs (fullPath file) = None
                      \/ statSize fs (fullPath file) = None) tsFiles ->
  fileStatsOf fs tsFiles = []
  /\ analyzeFiles fs tsFiles = Reported (generateReport []) []
  /\ analyzeFiles fs [] = NoFilesFound.
Proof.
  intros Hne Hall.
  assert (E : fileStatsOf fs tsFiles = []).
  { clear Hne. induction Hall as [|file files Hf _ IH]; [reflexivity|].
    rewrite fileStatsOf_cons.
    replace (analyzeFile fs (fullPath file)) with zeroStatistics; [exact IH|].
    unfold analyzeFile. destruct Hf as [-> | Hs]; [reflexivity|].
    destruct (readFileSync fs (fullPath file)); [now rewrite Hs | reflexivity]. }
  split; [exact E|]. split; [|reflexivity].
  unfold analyzeFiles. rewrite E.
  destruct tsFiles; [congruence | reflexivity].
Qed.


Lemma insertDescending_perm key x l : Permutation (insertDescending key x l) (x :: l).
Proof.
  induction l as [|y l IH]; cbn [insertDescending]; [reflexivity|].
  destruct (key x <? key y); [|reflexivity].
  rewrite IH. apply perm_swap.
Qed.

Lemma sortDescending_perm key l : Permutation (sortDescending key l) l.
Proof.
  unfold sortDescending. induction l as [|x l IH]; cbn [fold_right]; [reflexivity|].
  rewrite insertDescending_perm. now constructor.
Qed.

Lemma insertDescending_sorted key x l :
  descending key l -> descending key (insertDescending key x l).
Proof.
  unfold descending. induction 1 as [|y l Hs IH Hy]; cbn [insertDescending].
  - repeat constructor.
  - destruct (key x <? key y) eqn:E.
    + apply Z.ltb_lt in E. constructor; [exact IH|].
      apply (Permutation_Forall (Permutation_sym (insertDescending_perm key x l))).
      constructor; [lia | exact Hy].
    + apply Z.ltb_ge in E. constructor; [now constructor|].
      constructor; [exact E|].
      eapply List.Forall_impl; [|exact Hy]. cbn. intros z Hz. lia.
Qed.

Lemma sortDescending_sorted key l : descending key (sortDescending key l).
Proof.
  unfold sortDescending. induction l as [|x l IH]; cbn [fold_right].
  - constructor.
  - now apply insertDescending_sorted.
Qed.

Lemma descending_app key a b :
  descending key (a ++ b) -> forall x y, In x a -> In y b -> key y <= key x.
Proof.
  unfold descending. induction a as [|z a IH]; intros Hs x y Hx Hy; [destruct Hx|].
  cbn [app] in Hs. inversion Hs as [|? ? Hs' Hall]; subst.
  destruct Hx as [-> | Hx]; [|now apply IH].
  rewrite List.Forall_forall in Hall. apply Hall. apply in_or_app. now right.
Qed.

Lemma In_firstn {A} n (l : list A) x : In x (firstn n l) -> In x l.
Proof.
  intros H. rewrite <- (firstn_skipn n l). apply in_or_app. now left.
Qed.

Lemma descending_firstn key n l : descending key l -> descending key (firstn n l).
Proof.
  unfold descending. intros Hs. revert n.
  induction Hs as [|x l Hs IH Hx]; intros [|n]; cbn [firstn]; try constructor.
  - apply IH.
  - rewrite List.Forall_forall in *. intros y Hy. apply Hx.
    now apply (In_firstn n l y).
Qed.

(** X23: [showRankings] prints [min limit n] of the [n] files, all of
    them from the list, in descending order of the key, and no file it
    leaves out has a larger key than a file it prints. *)
Theorem showRankings_is_the_top
    (fileStats : list FileStat) (key : FileStat -> Z) (limit : nat) :
  let ranking := showRankings fileStats key limit in
  List.length ranking = Nat.min limit (List.length fileStats)
  /\ descending key ranking
  /\ (forall x, In x ranking -> In x fileStats)
  /\ (exists others,
        Permutation (ranking ++ others) fileStats
        /\ forall x y, In x ranking -> In y others -> key y <= key x).
Proof.
  unfold showRankings. cbv zeta.
  pose proof (sortDescending_perm key fileStats) as Hp.
  pose proof (sortDescending_sorted key fileStats) as Hs.
  split; [|split; [|split]].
  - rewrite List.length_firstn. now rewrite (Permutation_length Hp).
  - now apply descending_firstn.
  - intros x Hx. apply (Permutation_in x Hp). now apply (In_firstn limit _ x).
  - exists (skipn limit (sortDescending key fileStats)).
    rewrite firstn_skipn. split; [exact Hp|].
    apply descending_app. now rewrite firstn_skipn.
Qed.

Lemma insertDescending_filter key k x l :
  List.filter (fun y => key y =? k) (insertDescending key x l)
  = List.filter (fun y => key y =? k) (x :: l).
Proof.
  induction l as [|y l IH]; cbn [insertDescending]; [reflexivity|].
  destruct (key x <? key y) eqn:E; [|reflexivity].
  apply Z.ltb_lt in E. cbn [List.filter] in *. rewrite IH.
  destruct (key y =? k) eqn:Ey; [|reflexivity].
  destruct (key x =? k) eqn:Ex; [|reflexivity].
  apply Z.eqb_eq in Ey, Ex. lia.
Qed.

(** X24: the sort of [showRankings] rearranges the list without adding
    or dropping a file, puts it in descending order of the key, and is
    stable: the files with the same key keep the order they had. *)
Theorem sortDescending_stable_permutation (key : FileStat -> Z) (l : list FileStat) :
  Permutation (sortDescending key l) l
  /\ descending key (sortDescending key l)
  /\ forall k, List.filter (fun y => key y =? k) (sortDescending key l)
               = List.filter (fun y => key y =? k) l.
Proof.
  split; [apply sortDescending_perm|]. split; [apply sortDescending_sorted|].
  intros k. unfold sortDescending. induction l as [|x l IH]; [reflexivity|].
  cbn [fold_right]. rewrite insertDescending_filter. cbn [List.filter].
  now rewrite IH.
Qed.

Lemma nearestTenth_integer b : nearestTenth (inject_Z b) = b * 10.
Proof.
  unfold nearestTenth, Qfloor, Qplus, Qmult, inject_Z. cbn [Qnum Qden].
  change (Z.pos (1 * 1)) with 1. change (Z.pos (1 * 1 * 2)) with 2.
  replace (b * 10 * 2 + 1 * 1) with (1 + b * 10 * 2) by lia.
  rewrite Z.div_add by lia. reflexivity.
Qed.

(** X25: a whole number of bytes below 1024 is printed as that number
    followed by [.0 B]. *)
Theorem formatFileSize_below_one_kilobyte (bytes : Z) :
  0 <= bytes < 1024 ->
  formatFileSize (ofZ bytes) = Some (decimal bytes ++ lit ".0 B").
Proof.
  intros Hb. unfold formatFileSize, ofZ, scale.
  cbn [units List.length Nat.pred scaleLoop].
  rewrite keepsScaling_finite.
  assert (E : Qle_bool 1024 (inject_Z bytes) = false).
  { apply Bool.not_true_iff_false. intros H. apply Qle_bool_iff in H.
    unfold Qle in H. cbn in H. lia. }
  rewrite E. cbn [andb].
  assert (H0 : (0 <= inject_Z bytes)%Q) by (unfold Qle; cbn; lia).
  assert (H1 : (inject_Z bytes < inject_Z (10 ^ 21))%Q).
  { rewrite <- Zlt_Qlt. lia. }
  destruct (toFixed1_nonneg _ H0 H1) as [Ht _]. rewrite Ht.
  rewrite nearestTenth_integer, Z.div_mul, Z.mod_mul by lia.
  cbn [nth units]. now rewrite <- !app_assoc.
Qed.

Lemma report_independent_of_file_order_witness :
  generateReport [mkFileStat sampleHandle (mkStats 2 (mkCounts 1 0 1 0) 10);
                  mkFileStat sampleHandle (mkStats 1 (mkCounts 0 1 0 0) 5)]
  = generateReport [mkFileStat sampleHandle (mkStats 1 (mkCounts 0 1 0 0) 5);
                    mkFileStat sampleHandle (mkStats 2 (mkCounts 1 0 1 0) 10)].
Proof.
  apply (report_independent_of_file_order
           [mkFileStat sampleHandle (mkStats 2 (mkCounts 1 0 1 0) 10);
            mkFileStat sampleHandle (mkStats 1 (mkCounts 0 1 0 0) 5)]
           [mkFileStat sampleHandle (mkStats 1 (mkCounts 0 1 0 0) 5);
            mkFileStat sampleHandle (mkStats 2 (mkCounts 1 0 1 0) 10)]).
  apply perm_swap.
Defined.

Lemma all_files_failed_still_reports_witness :
  analyzeFiles unreadableFS [sampleHandle] = Reported (generateReport []) [].
Proof.
  apply (all_files_failed_still_reports unreadableFS [sampleHandle]).
  - discriminate.
  - repeat constructor.
Defined.

Lemma formatFileSize_below_one_kilobyte_witness :
  formatFileSize (ofZ 512) = Some (decimal 512 ++ lit ".0 B").
Proof.
  apply (formatFileSize_below_one_kilobyte 512). lia.
Defined.
